(** * Hacker News summary notifications: the two serverless handlers

    A shallow embedding of [api/hn.js] (digest mode: one combined
    notification) and of the per-story handler (one notification per
    story, configurable limit), with the properties their
    specification states about summary extraction, truncation of the
    story list, skipping, counting and failure handling.

    JavaScript strings are sequences of UTF-16 code units, numbers are
    the integers (the only numbers the Hacker News API produces), the
    network is an oracle that answers each call of [fetch], and the
    parsed page is the element tree that cheerio's [load] builds. *)

From Stdlib Require Import String Ascii.
From Stdlib Require Import List ZArith NArith Bool Lia.
From Stdlib Require Import Numbers.DecimalString.
From Stdlib Require Numbers.DecimalPos.
Import ListNotations.

Open Scope Z_scope.

#[local] Set Warnings "-register-all".

(** ** Strings *)

(** A JavaScript string: its UTF-16 code units. *)
Definition jsstr := list N.

(** A source literal (ASCII) as a JavaScript string. *)
Definition lit (s : string) : jsstr :=
  map N_of_ascii (list_ascii_of_string s).

Fixpoint jsstr_eqb (a b : jsstr) : bool :=
  match a, b with
  | [], [] => true
  | x :: a', y :: b' => N.eqb x y && jsstr_eqb a' b'
  | _, _ => false
  end.

(** ECMAScript WhiteSpace and LineTerminator code units: what [trim]
    strips and what the regular expression class [\s] matches. *)
Definition is_space (c : N) : bool :=
  (((9 <=? c) && (c <=? 13)) || (c =? 32) || (c =? 160) || (c =? 5760)
   || ((8192 <=? c) && (c <=? 8202)) || (c =? 8232) || (c =? 8233)
   || (c =? 8239) || (c =? 8287) || (c =? 12288) || (c =? 65279))%N.

Fixpoint trim_start (s : jsstr) : jsstr :=
  match s with
  | [] => []
  | c :: s' => if is_space c then trim_start s' else s
  end.

(** [String.prototype.trim]. *)
Definition trim (s : jsstr) : jsstr :=
  rev (trim_start (rev (trim_start s))).

(** [s.split(/\s+/)]: the scan keeps the piece being read (reversed) and
    whether it is inside a run of white space that already closed a
    piece.  A run at the start or at the end leaves an empty piece, and
    the empty string gives one empty piece. *)
Fixpoint split_ws_from (in_ws : bool) (piece : jsstr) (s : jsstr)
  : list jsstr :=
  match s with
  | [] => [rev piece]
  | c :: s' =>
      if is_space c
      then if in_ws then split_ws_from true piece s'
           else rev piece :: split_ws_from true [] s'
      else split_ws_from false (c :: piece) s'
  end.

Definition split_ws (s : jsstr) : list jsstr := split_ws_from false [] s.

(** Does [s] start with [p]? *)
Fixpoint starts_with (p s : jsstr) : bool :=
  match p, s with
  | [], _ => true
  | a :: p', b :: s' => N.eqb a b && starts_with p' s'
  | _ :: _, [] => false
  end.

(** [s.split(sep)] for a non-empty string separator: scan from the
    left; at an occurrence of [sep] close the current piece and step
    over the separator ([skip] counts the code units of it still to
    pass). *)
Fixpoint split_from (sep : jsstr) (skip : nat) (piece : jsstr) (s : jsstr)
  : list jsstr :=
  match s with
  | [] => [rev piece]
  | c :: s' =>
      match skip with
      | S k => split_from sep k piece s'
      | O =>
          if starts_with sep s
          then rev piece :: split_from sep (length sep - 1) [] s'
          else split_from sep 0 (c :: piece) s'
      end
  end.

(** With the empty separator [split] gives the code units one by one. *)
Definition split (sep s : jsstr) : list jsstr :=
  match sep with
  | [] => map (fun c => [c]) s
  | _ :: _ => split_from sep 0 [] s
  end.

(** [Array.prototype.join] on an array of strings. *)
Fixpoint join (sep : jsstr) (l : list jsstr) : jsstr :=
  match l with
  | [] => []
  | [x] => x
  | x :: l' => x ++ sep ++ join sep l'
  end.

(** [Array.prototype.slice(0, end)] (and the same on the code units of a
    string): a negative [end] counts from the end. *)
Definition slice0 {A : Type} (l : list A) (e : Z) : list A :=
  let len := Z.of_nat (length l) in
  let final := if e <? 0 then Z.max (len + e) 0 else Z.min e len in
  firstn (Z.to_nat final) l.

(** Decimal digits of an integer, as [Number.prototype.toString] prints
    it.  This is what the code prints for the integers a JS number
    holds exactly (below [10^21] to be precise; from there on the code
    prints exponent notation): see [safe_integer]. *)
Definition string_of_Z (z : Z) : jsstr :=
  lit (NilZero.string_of_int (Z.to_int z)).

(** ** JSON values *)

(** What [res.json()] yields.  The JavaScript value [undefined] (a
    property that is absent) is [None] in an [option JSON]. *)
Inductive JSON : Type :=
| JNull
| JBool (b : bool)
| JNum (z : Z)
| JStr (s : jsstr)
| JArr (l : list JSON)
| JObj (fields : list (jsstr * JSON)).

Definition is_empty (s : jsstr) : bool :=
  match s with [] => true | _ :: _ => false end.

(** ToBoolean, as used by [!x], [x || y] and [filter(Boolean)]. *)
Definition truthy (v : JSON) : bool :=
  match v with
  | JNull => false
  | JBool b => b
  | JNum z => negb (z =? 0)
  | JStr s => negb (is_empty s)
  | JArr _ | JObj _ => true
  end.

Definition truthy_val (v : option JSON) : bool :=
  match v with Some j => truthy j | None => false end.

Fixpoint assoc {V : Type} (k : jsstr) (l : list (jsstr * V)) : option V :=
  match l with
  | [] => None
  | (k', v) :: l' => if jsstr_eqb k k' then Some v else assoc k l'
  end.

(** Property read [v.k] on a value that is not [null], for the keys the
    handlers read ([url], [title], [score]): only an object can have
    them. *)
Definition get (v : JSON) (k : jsstr) : option JSON :=
  match v with
  | JObj fields => assoc k fields
  | _ => None
  end.

(** ToString, as a template literal applies it; [None] is the TypeError
    of an object whose own [toString] field hides the inherited method.
    An array prints its elements separated by commas, [null] as the
    empty string. *)
Fixpoint to_string (v : JSON) : option jsstr :=
  match v with
  | JNull => Some (lit "null")
  | JBool true => Some (lit "true")
  | JBool false => Some (lit "false")
  | JNum z => Some (string_of_Z z)
  | JStr s => Some s
  | JArr l =>
      option_map (join (lit ","))
        ((fix elems (l : list JSON) : option (list jsstr) :=
            match l with
            | [] => Some []
            | x :: l' =>
                match (match x with JNull => Some [] | _ => to_string x end),
                      elems l' with
                | Some s, Some r => Some (s :: r)
                | _, _ => None
                end
            end) l)
  | JObj fields =>
      match assoc (lit "toString") fields with
      | Some _ => None
      | None => Some (lit "[object Object]")
      end
  end.

Definition to_string_val (v : option JSON) : option jsstr :=
  match v with
  | Some j => to_string j
  | None => Some (lit "undefined")
  end.

(** ** The parsed page *)

(** The tree cheerio's [load] builds: text nodes and elements with their
    attributes. *)
Inductive Node : Type :=
| Text (data : jsstr)
| Element (name : jsstr) (attribs : list (jsstr * jsstr))
    (children : list Node).

Definition Document := list Node.

(** The elements of a subtree that a selector matches, in document
    order. *)
Fixpoint select (m : jsstr -> list (jsstr * jsstr) -> bool) (n : Node)
  : list Node :=
  match n with
  | Text _ => []
  | Element name attribs children =>
      (if m name attribs then [n] else []) ++ flat_map (select m) children
  end.

(** [$(selector)]. *)
Definition query (m : jsstr -> list (jsstr * jsstr) -> bool)
  (doc : Document) : list Node :=
  flat_map (select m) doc.

(** Selector [tag]. *)
Definition by_tag (tag : jsstr) : jsstr -> list (jsstr * jsstr) -> bool :=
  fun name _ => jsstr_eqb name tag.

(** Selector [tag[key="value"]]. *)
Definition by_tag_attr (tag key value : jsstr)
  : jsstr -> list (jsstr * jsstr) -> bool :=
  fun name attribs =>
    jsstr_eqb name tag &&
    match assoc key attribs with
    | Some v => jsstr_eqb v value
    | None => false
    end.

(** [.attr(key)]: the attribute of the first element of the selection,
    [undefined] when the selection is empty or the attribute absent. *)
Definition attr (sel : list Node) (key : jsstr) : option jsstr :=
  match sel with
  | Element _ attribs _ :: _ => assoc key attribs
  | _ => None
  end.

(** [.text()]: the text of all descendants. *)
Fixpoint text (n : Node) : jsstr :=
  match n with
  | Text data => data
  | Element _ _ children => flat_map text children
  end.

(** [.filter(Boolean)] on an array of strings and [undefined]s. *)
Fixpoint filter_Boolean (l : list (option jsstr)) : list jsstr :=
  match l with
  | [] => []
  | Some (c :: s) :: l' => (c :: s) :: filter_Boolean l'
  | _ :: l' => filter_Boolean l'
  end.

Definition meta_description : jsstr -> list (jsstr * jsstr) -> bool :=
  by_tag_attr (lit "meta") (lit "name") (lit "description").
Definition meta_og_description : jsstr -> list (jsstr * jsstr) -> bool :=
  by_tag_attr (lit "meta") (lit "property") (lit "og:description").
Definition meta_twitter_description : jsstr -> list (jsstr * jsstr) -> bool :=
  by_tag_attr (lit "meta") (lit "name") (lit "twitter:description").

(** The three candidates of [extractSummary], in the order of the source
    array. *)
Definition candidates (doc : Document) : list (option jsstr) :=
  [ attr (query meta_description doc) (lit "content");
    attr (query meta_og_description doc) (lit "content");
    attr (query meta_twitter_description doc) (lit "content") ].

Definition metaTags (doc : Document) : list jsstr :=
  filter_Boolean (candidates doc).

(** [p => p.split(/\s+/).length >= 20]. *)
Definition long_enough (p : jsstr) : bool :=
  (20 <=? length (split_ws p))%nat.

(** The trimmed texts of the [p] elements that pass the filter. *)
Definition paragraphs (doc : Document) : list jsstr :=
  filter long_enough (map (fun el => trim (text el)) (query (by_tag (lit "p")) doc)).

(** The part of [extractSummary] after [load(html)], the same in both
    handlers: a meta description if there is one, else the first two
    sentences of the first long paragraph, else the empty string. *)
Definition summary_of (doc : Document) : jsstr :=
  match metaTags doc with
  | m :: _ => m
  | [] =>
      match paragraphs doc with
      | p :: _ =>
          let sentences := split (lit ". ") p in
          join (lit ". ") (slice0 sentences 2) ++ lit "."
      | [] => lit ""
      end
  end.

(** ** The network, the console and the invoker *)

Inductive Method : Type := GET | POST.

(** One call [fetch(url, { method, headers, body })]. *)
Record Request : Type := mkRequest {
  req_method : Method;
  req_url : JSON;
  req_headers : list (jsstr * option JSON);
  req_body : option jsstr
}.

(** What the handlers read of a response: [res.ok], [res.status], the
    value of [res.json()] and the tree [load(await res.text())] builds;
    [None] when reading or parsing the body throws. *)
Record Response : Type := mkResponse {
  res_ok : bool;
  res_status : Z;
  res_json : option JSON;
  res_dom : option Document
}.

(** A call either rejects (no connection, a URL or header [fetch]
    refuses) or resolves to a response. *)
Inductive Outcome : Type :=
| Rejected
| Resolved (res : Response).

(** The network answers the [n]-th call of a run. *)
Definition Network := nat -> Request -> Outcome.

(** Values the code throws. *)
Inductive Error : Type :=
| FetchError (req : Request)
| HttpError (url : jsstr) (status : option Z)
| BodyError
| TypeError.

(** Lines written with [console.error]. *)
Inductive LogLine : Type :=
| LogError (err : Error)
| LogExtractSummary (err : Error)
| LogSendFailed (title : jsstr) (status : Z).

(** [res.status(code).json(value)]. *)
Record Reply : Type := mkReply {
  reply_status : Z;
  reply_json : JSON
}.

(** What a run has done so far: the calls of [fetch] in order, each with
    the answer it got, the console lines in order and the reply given to
    the invoker. *)
Record State : Type := mkState {
  calls : list (Request * Outcome);
  console : list LogLine;
  replied : option Reply
}.

Definition initial : State := mkState [] [] None.

Inductive Result (A : Type) : Type :=
| Ok (a : A)
| Throw (err : Error).
Arguments Ok {A} a.
Arguments Throw {A} err.

(** Computations of a run: they read the network, change the state and
    return or throw. *)
Definition M (A : Type) : Type := Network -> State -> Result A * State.

Definition ret {A : Type} (a : A) : M A := fun _ st => (Ok a, st).

Definition throw {A : Type} (err : Error) : M A := fun _ st => (Throw err, st).

Definition bind {A B : Type} (m : M A) (k : A -> M B) : M B :=
  fun net st =>
    match m net st with
    | (Ok a, st') => k a net st'
    | (Throw err, st') => (Throw err, st')
    end.

Notation "x <- m ;; k" := (bind m (fun x => k))
  (at level 61, m at next level, right associativity).
Notation "m ;;; k" := (bind m (fun _ => k))
  (at level 61, right associativity).

(** [try { m } catch (err) { h err }]. *)
Definition try_catch {A : Type} (m : M A) (h : Error -> M A) : M A :=
  fun net st =>
    match m net st with
    | (Ok a, st') => (Ok a, st')
    | (Throw err, st') => h err net st'
    end.

(** [await fetch(...)]. *)
Definition fetch (req : Request) : M Response :=
  fun net st =>
    let answer := net (length (calls st)) req in
    let st' := mkState (calls st ++ [(req, answer)]) (console st) (replied st) in
    match answer with
    | Resolved res => (Ok res, st')
    | Rejected => (Throw (FetchError req), st')
    end.

Definition console_error (line : LogLine) : M unit :=
  fun _ st => (Ok tt, mkState (calls st) (console st ++ [line]) (replied st)).

Definition respond (code : Z) (value : JSON) : M unit :=
  fun _ st => (Ok tt, mkState (calls st) (console st) (Some (mkReply code value))).

(** A value that may be a TypeError. *)
Definition or_type_error {A : Type} (o : option A) : M A :=
  match o with
  | Some a => ret a
  | None => throw TypeError
  end.

(** [await res.json()]. *)
Definition json (res : Response) : M JSON :=
  match res_json res with
  | Some v => ret v
  | None => throw BodyError
  end.

(** [load(await res.text())]. *)
Definition load_text (res : Response) : M Document :=
  match res_dom res with
  | Some doc => ret doc
  | None => throw BodyError
  end.

(** [for (const x of l) { acc = body x acc }]: the loop with the
    variables it updates; [continue] is a body that returns them
    unchanged. *)
Fixpoint for_of {X A : Type} (l : list X) (acc : A) (body : X -> A -> M A)
  : M A :=
  match l with
  | [] => ret acc
  | x :: l' => acc' <- body x acc ;; for_of l' acc' body
  end.

(** [fetch(url)] with the defaults. *)
Definition plain_get (url : jsstr) : Request :=
  mkRequest GET (JStr url) [] None.

(** [fetch(url, { headers: { 'User-Agent': 'Mozilla/5.0' } })]. *)
Definition browser_get (url : JSON) : Request :=
  mkRequest GET url [(lit "User-Agent", Some (JStr (lit "Mozilla/5.0")))] None.

Definition topstories_url : jsstr :=
  lit "https://hacker-news.firebaseio.com/v0/topstories.json".

(** [`https://hacker-news.firebaseio.com/v0/item/${id}.json`]. *)
Definition item_url (id : jsstr) : jsstr :=
  lit "https://hacker-news.firebaseio.com/v0/item/" ++ id ++ lit ".json".

(** [`https://ntfy.sh/${TOPIC}`]. *)
Definition ntfy_url (topic : jsstr) : jsstr := lit "https://ntfy.sh/" ++ topic.

Definition no_summary : jsstr := lit "(No summary available)".

(** [s || d] on strings. *)
Definition str_or (s d : jsstr) : jsstr := if is_empty s then d else s.

(** [process.env.NAME || d]. *)
Definition env_or (v : option jsstr) (d : jsstr) : jsstr :=
  match v with
  | Some s => str_or s d
  | None => d
  end.

(** The link of an item that passes [if (!item || !item.url) continue]. *)
Definition story_url (item : JSON) : option JSON :=
  if truthy item
  then match get item (lit "url") with
       | Some url => if truthy url then Some url else None
       | None => None
       end
  else None.

(** ** Configuration *)

(** [process.env]: the four variables the handlers read. *)
Record Env : Type := mkEnv {
  NTFY_TOPIC : option jsstr;
  NTFY_TITLE : option jsstr;
  NTFY_TAGS : option jsstr;
  STORY_LIMIT : option jsstr
}.

Definition digit (c : N) : option Z :=
  if ((48 <=? c) && (c <=? 57))%N then Some (Z.of_N c - 48) else None.

(** The longest prefix of decimal digits, as a number; [acc] is [None]
    until a digit has been read. *)
Fixpoint digits (acc : option Z) (s : jsstr) : option Z :=
  match s with
  | [] => acc
  | c :: s' =>
      match digit c with
      | Some d =>
          digits (Some (10 * match acc with Some n => n | None => 0 end + d)) s'
      | None => acc
      end
  end.

(** [parseInt(v, 10)]: [None] is NaN.  [undefined] is read as the
    string "undefined"; leading white space is skipped, one sign is
    accepted, and what follows the digits is ignored.  The result is the
    integer the digits denote; the code rounds it to a double, which is
    the same number when it is a [safe_integer]. *)
Definition parseInt (v : option jsstr) : option Z :=
  let input := match v with Some s => s | None => lit "undefined" end in
  let s := trim_start input in
  let '(negative, rest) :=
    match s with
    | 45%N :: r => (true, r)
    | 43%N :: r => (false, r)
    | _ => (false, s)
    end in
  match digits None rest with
  | Some n => Some (if negative then - n else n)
  | None => None
  end.

(** [n || d] on a number that may be NaN. *)
Definition num_or (n : option Z) (d : Z) : Z :=
  match n with
  | Some z => if z =? 0 then d else z
  | None => d
  end.

(** ** The per-story handler *)

Module PerStory.

Record Config : Type := mkConfig {
  TOPIC : jsstr;
  TAGS : jsstr;
  LIMIT : Z
}.

(** The three module constants, read once from the environment. *)
Definition config (env : Env) : Config :=
  {| TOPIC := env_or (NTFY_TOPIC env) (lit "hn_daily_summaries");
     TAGS := env_or (NTFY_TAGS env) (lit "news");
     LIMIT := num_or (parseInt (STORY_LIMIT env)) 10 |}.

(** Any failure is logged and gives [null]. *)
Definition fetchJSON (url : jsstr) : M JSON :=
  try_catch
    (res <- fetch (plain_get url) ;;
     if negb (res_ok res)
     then throw (HttpError url (Some (res_status res)))
     else json res)
    (fun err => console_error (LogError err) ;;; ret JNull).

(** Any failure is logged and gives the empty string. *)
Definition extractSummary (url : JSON) : M jsstr :=
  try_catch
    (res <- fetch (browser_get url) ;;
     if negb (res_ok res) then ret (lit "")
     else
       doc <- load_text res ;;
       ret (summary_of doc))
    (fun err => console_error (LogExtractSummary err) ;;; ret (lit "")).

Record Story : Type := mkStory {
  title : option JSON;
  summary : jsstr;
  url : JSON
}.

Definition notification (cfg : Config) (story : Story) (body : jsstr)
  : Request :=
  mkRequest POST (JStr (ntfy_url (TOPIC cfg)))
    [ (lit "Title", title story);
      (lit "Tags", Some (JStr (TAGS cfg)));
      (lit "Click", Some (url story)) ]
    (Some body).

Definition sendNotification (cfg : Config) (story : Story) : M unit :=
  u <- or_type_error (to_string (url story)) ;;
  let body := summary story ++ [10%N] ++ u in
  res <- fetch (notification cfg story body) ;;
  if negb (res_ok res)
  then
    t <- or_type_error (to_string_val (title story)) ;;
    console_error (LogSendFailed t (res_status res))
  else ret tt.

(** The body of the loop; it returns the new value of [sent]. *)
Definition visit (cfg : Config) (id : JSON) (sent : Z) : M Z :=
  i <- or_type_error (to_string id) ;;
  item <- fetchJSON (item_url i) ;;
  match story_url item with
  | None => ret sent
  | Some u =>
      summary <- extractSummary u ;;
      try_catch
        (sendNotification cfg
           (mkStory (get item (lit "title")) (str_or summary no_summary) u))
        (fun err => console_error (LogError err)) ;;;
      ret (sent + 1)
  end.

Definition handler (cfg : Config) : M unit :=
  try_catch
    (ids <- fetchJSON topstories_url ;;
     match ids with
     | JArr l =>
         let topIds := slice0 l (LIMIT cfg) in
         sent <- for_of topIds 0 (visit cfg) ;;
         respond 200 (JObj [(lit "success", JBool true); (lit "sent", JNum sent)])
     | _ =>
         respond 500 (JObj [(lit "error", JStr (lit "Failed to fetch top stories"))])
     end)
    (fun err =>
       console_error (LogError err) ;;;
       respond 500 (JObj [(lit "error", JStr (lit "Internal Server Error"))])).

(** One invocation on a given network. *)
Definition run (cfg : Config) (net : Network) : State :=
  snd (handler cfg net initial).

End PerStory.

(** ** The digest handler, [api/hn.js] *)

Module Digest.

Record Config : Type := mkConfig {
  TOPIC : jsstr;
  TITLE : jsstr;
  TAGS : jsstr
}.

Definition config (env : Env) : Config :=
  {| TOPIC := env_or (NTFY_TOPIC env) (lit "hn_daily_summaries");
     TITLE := env_or (NTFY_TITLE env) (lit "Hacker News Top 10");
     TAGS := env_or (NTFY_TAGS env) (lit "news") |}.

(** A failure is thrown to the caller. *)
Definition fetchJSON (url : jsstr) : M JSON :=
  res <- fetch (plain_get url) ;;
  if negb (res_ok res) then throw (HttpError url None) else json res.

(** No [try] here: a rejected [fetch] or an unreadable body is thrown to
    the caller; only a response that is not [ok] gives the empty
    string. *)
Definition extractSummary (url : JSON) : M jsstr :=
  res <- fetch (browser_get url) ;;
  if negb (res_ok res) then ret (lit "")
  else
    doc <- load_text res ;;
    ret (summary_of doc).

Record Story : Type := mkStory {
  title : option JSON;
  url : JSON;
  score : JSON;
  summary : jsstr
}.

(** [ids.slice(0, e)]: arrays and strings have the method, on any other
    value the call is a TypeError. *)
Definition slice_value (ids : JSON) (e : Z) : option JSON :=
  match ids with
  | JArr l => Some (JArr (slice0 l e))
  | JStr s => Some (JStr (slice0 s e))
  | _ => None
  end.

Definition is_high_surrogate (c : N) : bool := ((55296 <=? c) && (c <=? 56319))%N.
Definition is_low_surrogate (c : N) : bool := ((56320 <=? c) && (c <=? 57343))%N.

(** The strings a [for ... of] over a string visits: its code points. *)
Fixpoint code_points (s : jsstr) : list jsstr :=
  match s with
  | [] => []
  | c :: s' =>
      match s' with
      | d :: s'' =>
          if is_high_surrogate c && is_low_surrogate d
          then [c; d] :: code_points s''
          else [c] :: code_points s'
      | [] => [[c]]
      end
  end.

(** The values [for (const id of topIds)] visits. *)
Definition iterate (v : JSON) : option (list JSON) :=
  match v with
  | JArr l => Some l
  | JStr s => Some (map JStr (code_points s))
  | _ => None
  end.

(** [item.score || 0]. *)
Definition score_or_0 (v : option JSON) : JSON :=
  match v with
  | Some j => if truthy j then j else JNum 0
  | None => JNum 0
  end.

(** The body of the first loop; it returns [stories] after the push. *)
Definition visit (id : JSON) (stories : list Story) : M (list Story) :=
  i <- or_type_error (to_string id) ;;
  item <- fetchJSON (item_url i) ;;
  match story_url item with
  | None => ret stories
  | Some u =>
      summary <- extractSummary u ;;
      ret (stories ++
             [mkStory (get item (lit "title")) u
                (score_or_0 (get item (lit "score")))
                (str_or summary no_summary)])
  end.

(** The three lines of one story in the digest. *)
Definition entry (idx : Z) (story : Story) : option jsstr :=
  match to_string_val (title story), to_string (score story),
        to_string (url story) with
  | Some t, Some sc, Some u =>
      Some (string_of_Z (idx + 1) ++ lit ". " ++ t ++ lit " (score: " ++ sc
              ++ lit ")" ++ [10%N]
            ++ lit "   " ++ summary story ++ [10%N]
            ++ lit "   " ++ u ++ [10%N; 10%N])
  | _, _, _ => None
  end.

(** [stories.forEach((story, idx) => { body += ... })]. *)
Fixpoint compose (idx : Z) (stories : list Story) (body : jsstr)
  : option jsstr :=
  match stories with
  | [] => Some body
  | story :: rest =>
      match entry idx story with
      | Some e => compose (idx + 1) rest (body ++ e)
      | None => None
      end
  end.

Definition notification (cfg : Config) (body : jsstr) : Request :=
  mkRequest POST (JStr (ntfy_url (TOPIC cfg)))
    [ (lit "Title", Some (JStr (TITLE cfg)));
      (lit "Tags", Some (JStr (TAGS cfg))) ]
    (Some body).

Definition handler (cfg : Config) : M unit :=
  try_catch
    (ids <- fetchJSON topstories_url ;;
     topIds <- or_type_error (slice_value ids 10) ;;
     elements <- or_type_error (iterate topIds) ;;
     stories <- for_of elements [] visit ;;
     body <- or_type_error (compose 0 stories (lit "")) ;;
     fetch (notification cfg body) ;;;
     respond 200
       (JObj [(lit "success", JBool true);
              (lit "count", JNum (Z.of_nat (length stories)))]))
    (fun err =>
       console_error (LogError err) ;;;
       respond 500
         (JObj [(lit "error", JStr (lit "Failed to fetch or send stories"))])).

Definition run (cfg : Config) (net : Network) : State :=
  snd (handler cfg net initial).

End Digest.

(** ** Words and occurrences, as the specification speaks of them *)

(** The number of white-space-delimited words of a string: the maximal
    runs of code units that are not white space.  [after_ws] tells
    whether the previous code unit was white space (or there was
    none). *)
Fixpoint count_words (after_ws : bool) (s : jsstr) : nat :=
  match s with
  | [] => 0
  | c :: s' =>
      if is_space c then count_words true s'
      else ((if after_ws then 1 else 0) + count_words false s')%nat
  end.

Definition word_count (s : jsstr) : nat := count_words true s.

(** The separator of sentences. *)
Definition dot_space : jsstr := lit ". ".

(** The texts of the [p] elements, in document order. *)
Definition paragraph_texts (doc : Document) : list jsstr :=
  map text (query (by_tag (lit "p")) doc).

(** Does [sep] occur somewhere in [s]? *)
Fixpoint contains (sep s : jsstr) : bool :=
  starts_with sep s ||
  match s with
  | [] => false
  | _ :: s' => contains sep s'
  end.

(** Is the last code unit white space?  [b] answers for the empty
    string. *)
Fixpoint ends_ws (b : bool) (s : jsstr) : bool :=
  match s with
  | [] => b
  | c :: s' => ends_ws (is_space c) s'
  end.

(** The first string of a list of candidates that is neither absent nor
    empty. *)
Fixpoint first_nonempty (l : list (option jsstr)) : option jsstr :=
  match l with
  | [] => None
  | Some (c :: s) :: _ => Some (c :: s)
  | _ :: l' => first_nonempty l'
  end.

(** A page has no description when none of its description meta
    elements has a content that is not empty. *)
Definition no_description (doc : Document) : Prop :=
  forall el x,
    In el (query meta_description doc ++ query meta_og_description doc
           ++ query meta_twitter_description doc) ->
    attr [el] (lit "content") = Some x -> x = [].

(** Both versions of [extractSummary] return [x]. *)
Definition extractSummary_returns (net : Network) (st : State) (url : JSON)
  (x : jsstr) : Prop :=
  fst (PerStory.extractSummary url net st) = Ok x
  /\ fst (Digest.extractSummary url net st) = Ok x.

(** ** Reading the record of a run *)

(** What the per-story [fetchJSON] returns when the network gives answer
    [o]: the parsed body of a successful response, [null] otherwise. *)
Definition item_of (o : Outcome) : JSON :=
  match o with
  | Resolved res =>
      if res_ok res
      then match res_json res with Some v => v | None => JNull end
      else JNull
  | Rejected => JNull
  end.

(** What the per-story [extractSummary] returns when the network gives
    answer [o]: the summary of a page that was fetched and parsed, the
    empty string otherwise. *)
Definition summary_for (o : Outcome) : jsstr :=
  match o with
  | Resolved res =>
      if res_ok res
      then match res_dom res with Some doc => summary_of doc | None => lit "" end
      else lit ""
  | Rejected => lit ""
  end.

(** Calls made by [fetchJSON]: a GET without headers. *)
Definition is_api_call (c : Request * Outcome) : bool :=
  match req_method (fst c), req_headers (fst c) with
  | GET, [] => true
  | _, _ => false
  end.

(** Calls made by [extractSummary]: a GET with a header. *)
Definition is_page_call (c : Request * Outcome) : bool :=
  match req_method (fst c), req_headers (fst c) with
  | GET, _ :: _ => true
  | _, _ => false
  end.

(** Calls to the relay. *)
Definition is_post (c : Request * Outcome) : bool :=
  match req_method (fst c) with
  | POST => true
  | GET => false
  end.

(** An item fetch that was answered with an item that has a link. *)
Definition gave_story (c : Request * Outcome) : bool :=
  is_api_call c &&
  match story_url (item_of (snd c)) with
  | Some _ => true
  | None => false
  end.

(** A call that follows a link: a page fetch for a link that is truthy,
    a notification whose [Click] header is one.  Calls of the news API
    need no link. *)
Definition linked (c : Request * Outcome) : bool :=
  match req_method (fst c), req_headers (fst c) with
  | GET, [] => true
  | GET, _ :: _ => truthy (req_url (fst c))
  | POST, headers =>
      match assoc (lit "Click") headers with
      | Some click => truthy_val click
      | None => false
      end
  end.


(** The request for item [id]. *)
Definition item_request (id : Z) : Request :=
  plain_get (item_url (string_of_Z id)).

(** The first call of a run, with its answer. *)
Definition topstories_call (net : Network) : Request * Outcome :=
  (plain_get topstories_url, net 0%nat (plain_get topstories_url)).

(** The reply [{ success: true, sent: n }]. *)
Definition success_sent (n : Z) : Reply :=
  mkReply 200 (JObj [(lit "success", JBool true); (lit "sent", JNum n)]).

(** Two networks that answer every GET alike: they may differ in what
    the relay does with a POST. *)
Definition same_gets (net net' : Network) : Prop :=
  forall n req, req_method req = GET -> net n req = net' n req.

(** Two runs that made the same requests and gave the same reply. *)
Definition same_course (st st' : State) : Prop :=
  map fst (calls st) = map fst (calls st') /\ replied st = replied st'.

(** ** Sample pages and networks *)

Definition meta_el (key value content : string) : Node :=
  Element (lit "meta") [(lit key, lit value); (lit "content", lit content)] [].

Definition p_el (t : string) : Node :=
  Element (lit "p") [] [Text (lit t)].

Definition html_page (head body : list Node) : Document :=
  [Element (lit "html") []
     [Element (lit "head") [] head; Element (lit "body") [] body]].

(** Twenty-five words in three sentences. *)
Definition prose : string :=
  "one two three four five six seven eight. nine ten eleven twelve thirteen fourteen fifteen sixteen. seventeen eighteen nineteen twenty twentyone twentytwo twentythree twentyfour twentyfive.".

(** Twenty words in one sentence. *)
Definition one_sentence : string :=
  "one two three four five six seven eight nine ten eleven twelve thirteen fourteen fifteen sixteen seventeen eighteen nineteen twenty.".

Definition page_described : Document :=
  html_page
    [meta_el "property" "og:description" "from the graph";
     meta_el "name" "description" "X"]
    [p_el prose].

(** No [meta name=description]; the other two candidates are present,
    the twitter one first in the document. *)
Definition page_graph : Document :=
  html_page
    [meta_el "name" "twitter:description" "from the bird";
     meta_el "property" "og:description" "from the graph"]
    [p_el prose].

(** Two description elements, the first with an empty content. *)
Definition page_twice_described : Document :=
  html_page
    [meta_el "name" "description" ""; meta_el "name" "description" "X"]
    [].

Definition page_prose : Document :=
  html_page
    [meta_el "name" "viewport" "width=device-width";
     meta_el "name" "description" ""]
    [p_el "Menu"; Element (lit "div") [] [p_el (" " ++ prose ++ " ")];
     p_el one_sentence].

Definition page_one_sentence : Document :=
  html_page [] [p_el "Menu"; p_el one_sentence].

Definition page_captions : Document :=
  html_page [meta_el "property" "og:description" ""] [p_el "Menu"; p_el "Sign in"].

Definition article_url : JSON := JStr (lit "https://example.org/article").

(** A network that answers every call with the same page. *)
Definition serve_page (doc : Document) : Network :=
  fun _ _ => Resolved (mkResponse true 200 None (Some doc)).

(** Answers of a sample network. *)
Definition json_answer (v : JSON) : Outcome :=
  Resolved (mkResponse true 200 (Some v) None).

Definition page_answer (doc : Document) : Outcome :=
  Resolved (mkResponse true 200 None (Some doc)).

Definition status_answer (code : Z) : Outcome :=
  Resolved (mkResponse ((200 <=? code) && (code <? 300)) code None None).

(** A network that gives the [n]-th answer of a list to the [n]-th
    call, and rejects the calls after the last. *)
Definition script (answers : list Outcome) : Network :=
  fun n _ => nth n answers Rejected.

(** A network whose relay gives the same answer to every POST. *)
Definition with_relay (answer : Outcome) (base : Network) : Network :=
  fun n req =>
    match req_method req with
    | POST => answer
    | GET => base n req
    end.

Definition story_item : JSON :=
  JObj [(lit "title", JStr (lit "Show HN")); (lit "url", article_url);
        (lit "score", JNum 42)].

Definition text_post : JSON :=
  JObj [(lit "title", JStr (lit "Ask HN")); (lit "score", JNum 7)].

Definition ids_123 : JSON := JArr [JNum 1; JNum 2; JNum 3].

(** The list [1, 2, 3]; item 1 is a story with a described page, item 2
    a text post. *)
Definition net_123 : Network :=
  script [json_answer ids_123; json_answer story_item;
          page_answer page_described; status_answer 200;
          json_answer text_post].

Definition limit_2 : PerStory.Config :=
  PerStory.mkConfig (lit "hn_daily_summaries") (lit "news") 2.

Definition default_env : Env := mkEnv None None None None.

(** The list [1]; the fetch of item 1 is rejected. *)
Definition net_item_fails : Network :=
  script [json_answer (JArr [JNum 1])].

Definition twelve : list Z := [1; 2; 3; 4; 5; 6; 7; 8; 9; 10; 11; 12].

(** The list of twelve identifiers; every later call is rejected. *)
Definition net_twelve : Network :=
  script [json_answer (JArr (map JNum twelve))].

Definition env_limit_0 : Env := mkEnv None None None (Some (lit "0")).


(** A computation that takes the same course on two networks: from
    states with the same requests and reply it returns or throws the
    same and leaves such states. *)
Definition alike (net net' : Network) {A : Type} (m : M A) : Prop :=
  forall st st',
    same_course st st' ->
    fst (m net st) = fst (m net' st')
    /\ same_course (snd (m net st)) (snd (m net' st')).

Definition success_count (n : Z) : Reply :=
  mkReply 200 (JObj [(lit "success", JBool true); (lit "count", JNum n)]).

Definition perstory_list_error : Reply :=
  mkReply 500 (JObj [(lit "error", JStr (lit "Failed to fetch top stories"))]).

Definition digest_error : Reply :=
  mkReply 500
    (JObj [(lit "error", JStr (lit "Failed to fetch or send stories"))]).

(** A state in which no notification has been sent and nothing has been
    logged. *)
Definition quiet (st : State) : Prop :=
  Forall (fun c => is_post c = false) (calls st) /\ console st = [].

Definition digest_defaults : Digest.Config := Digest.config default_env.

(** The list endpoint answers with the JSON string "ab" instead of an
    array; the items "a" and "b" do not exist ([null]); the relay
    accepts the digest. *)
Definition net_string_list : Network :=
  script [json_answer (JStr (lit "ab")); json_answer JNull; json_answer JNull;
          status_answer 200].

(** The list [1]; item 1 is a story; the host of its article cannot be
    reached; the relay accepts what it gets. *)
Definition net_page_unreachable : Network :=
  with_relay (status_answer 200)
    (script [json_answer (JArr [JNum 1]); json_answer story_item]).

(** The list [1, 2]; both items are stories with a described page; the
    relay answers every notification with status 500. *)
Definition net_relay_down : Network :=
  with_relay (status_answer 500)
    (script [json_answer (JArr [JNum 1; JNum 2]);
             json_answer story_item; page_answer page_described;
             Rejected;
             json_answer story_item; page_answer page_described]).

(** The same with a relay that accepts every notification. *)
Definition net_relay_up : Network :=
  with_relay (status_answer 200)
    (script [json_answer (JArr [JNum 1; JNum 2]);
             json_answer story_item; page_answer page_described;
             Rejected;
             json_answer story_item; page_answer page_described]).

(** For the digest: the list [1], item 1 a story with a described page,
    and a relay that answers with status 500. *)
Definition net_digest_relay_down : Network :=
  with_relay (status_answer 500)
    (script [json_answer (JArr [JNum 1]); json_answer story_item;
             page_answer page_described]).

Definition sample_story : PerStory.Story :=
  PerStory.mkStory (Some (JStr (lit "Show HN"))) (lit "X") article_url.

Definition sample_body : jsstr :=
  lit "X" ++ [10%N] ++ lit "https://example.org/article".

Definition answer_500 : Response := mkResponse false 500 None None.

(** The page fetch of [extractSummary] has failed: the call was
    rejected, the response is not [ok], or its body cannot be read. *)
Definition page_failed (o : Outcome) : Prop :=
  match o with
  | Rejected => True
  | Resolved res => res_ok res = false \/ res_dom res = None
  end.

(** ** Notions for the properties of the whole handlers *)

(** The number a string of decimal digits stands for, read from the
    left with [acc] the value of the digits already read. *)
Fixpoint uint_value (d : Decimal.uint) (acc : Z) : Z :=
  match d with
  | Decimal.Nil => acc
  | Decimal.D0 d' => uint_value d' (10 * acc + 0)
  | Decimal.D1 d' => uint_value d' (10 * acc + 1)
  | Decimal.D2 d' => uint_value d' (10 * acc + 2)
  | Decimal.D3 d' => uint_value d' (10 * acc + 3)
  | Decimal.D4 d' => uint_value d' (10 * acc + 4)
  | Decimal.D5 d' => uint_value d' (10 * acc + 5)
  | Decimal.D6 d' => uint_value d' (10 * acc + 6)
  | Decimal.D7 d' => uint_value d' (10 * acc + 7)
  | Decimal.D8 d' => uint_value d' (10 * acc + 8)
  | Decimal.D9 d' => uint_value d' (10 * acc + 9)
  end.

(** Text at which [parseInt] stops reading digits: the end of the
    string, or a code unit that is no decimal digit. *)
Definition stops (rest : jsstr) : Prop :=
  match rest with
  | [] => True
  | c :: _ => digit c = None
  end.

(** The integers a JS number holds exactly ([Number.isSafeInteger]):
    on them [parseInt] gives the integer its digits denote and a
    template literal prints the number with all its decimal digits.
    Larger numbers are rounded to a double, and from [10^21] on they
    print in exponent notation. *)
Definition safe_integer (z : Z) : Prop :=
  - 9007199254740991 <= z <= 9007199254740991.

(** A notification of the per-story handler, read with the two calls
    made before it: [item] is the item fetch that gave the story,
    [page] the fetch of its article and [c] the request that
    [sendNotification] builds from them: to the topic of the
    configuration, with the title of the item, the tags and the link as
    headers, and with the body "summary, newline, link", where the
    summary is the one extracted from the page or, when that is empty,
    the text (No summary available). *)
Definition story_notification (cfg : PerStory.Config)
  (item page c : Request * Outcome) : Prop :=
  exists u text,
    is_api_call item = true
    /\ story_url (item_of (snd item)) = Some u
    /\ fst page = browser_get u
    /\ to_string u = Some text
    /\ let story :=
         PerStory.mkStory (get (item_of (snd item)) (lit "title"))
           (str_or (summary_for (snd page)) (lit "(No summary available)"))
           u in
       PerStory.summary story <> []
       /\ fst c = PerStory.notification cfg story
                    (PerStory.summary story ++ [10%N] ++ text).

(** Every POST of a list of calls comes right after the item fetch and
    the page fetch of the story it notifies. *)
Definition notifications_follow (cfg : PerStory.Config)
  (l : list (Request * Outcome)) : Prop :=
  forall pre c post,
    l = pre ++ c :: post ->
    is_post c = true ->
    exists pre' item page,
      pre = pre' ++ [item; page] /\ story_notification cfg item page c.

(** The digest loop has pushed one story for each page it fetched. *)
Definition collected (stories : list Digest.Story) (st : State) : Prop :=
  length stories = length (filter is_page_call (calls st)).

Definition perstory_internal_error : Reply :=
  mkReply 500 (JObj [(lit "error", JStr (lit "Internal Server Error"))]).

(** A story whose title, score and link can be printed in a template
    literal. *)
Definition printable_story (story : Digest.Story) : Prop :=
  to_string_val (Digest.title story) <> None
  /\ to_string (Digest.score story) <> None
  /\ to_string (Digest.url story) <> None.

(** The list endpoint answers with the empty array; the relay accepts
    what it gets. *)
Definition net_empty_list : Network :=
  with_relay (status_answer 200) (script [json_answer (JArr [])]).

Definition env_limit_words : Env :=
  mkEnv None None None (Some (lit " 25 stories")).

Definition env_limit_minus_1 : Env := mkEnv None None None (Some (lit "-1")).

Definition env_topic : Env := mkEnv (Some (lit "alerts")) None None None.

(* ================================================================== *)
(** * Properties *)

(** ** Strings *)

Lemma slice0_firstn {A : Type} (l : list A) (e : Z) :
  0 <= e -> slice0 l e = firstn (Z.to_nat e) l.
Proof.
  intros He. unfold slice0.
  destruct (e <? 0) eqn:Hneg; [apply Z.ltb_lt in Hneg; lia|].
  destruct (Z.le_ge_cases e (Z.of_nat (length l))) as [Hle | Hge].
  - rewrite Z.min_l by lia. reflexivity.
  - rewrite Z.min_r by lia. rewrite Nat2Z.id.
    rewrite firstn_all. symmetry. apply firstn_all2. lia.
Qed.

Lemma slice0_length {A : Type} (l : list A) (e : Z) :
  0 <= e -> Z.of_nat (length (slice0 l e)) = Z.min e (Z.of_nat (length l)).
Proof.
  intros He. rewrite slice0_firstn by assumption.
  rewrite length_firstn. lia.
Qed.

(** A string in which the separator does not occur is one piece. *)
Lemma split_from_absent (sep piece s : jsstr) :
  contains sep s = false ->
  split_from sep 0 piece s = [rev piece ++ s].
Proof.
  revert piece. induction s as [|c s IH]; intros piece H; simpl.
  - rewrite app_nil_r. reflexivity.
  - simpl in H. apply orb_false_elim in H as [H1 H2].
    simpl in H1. rewrite H1. rewrite IH by assumption.
    simpl. rewrite <- app_assoc. reflexivity.
Qed.

(** No occurrence of ". " in [a] means none starts inside [a] when ". "
    follows: the separator begins with a period, not a space. *)
Lemma starts_with_dot_space_app (a r : jsstr) (c : N) :
  contains dot_space (c :: a) = false ->
  starts_with dot_space ((c :: a) ++ dot_space ++ r) = false.
Proof.
  intros H. cbn [contains] in H. apply orb_false_elim in H as [H _].
  change dot_space with [46%N; 32%N] in *.
  cbn [starts_with app] in *.
  destruct (46 =? c)%N; [|reflexivity].
  destruct a as [|d a]; cbn [starts_with app andb] in *.
  - reflexivity.
  - destruct (32 =? d)%N; [discriminate|reflexivity].
Qed.

Lemma contains_tail (sep : jsstr) (c : N) (s : jsstr) :
  contains sep (c :: s) = false -> contains sep s = false.
Proof.
  simpl. intros H. apply orb_false_elim in H as [_ H]. exact H.
Qed.

(** The piece before the first ". ". *)
Lemma split_from_dot_space (a r piece : jsstr) :
  contains dot_space a = false ->
  split_from dot_space 0 piece (a ++ dot_space ++ r)
  = (rev piece ++ a) :: split_from dot_space 0 [] r.
Proof.
  revert piece. induction a as [|c a IH]; intros piece H.
  - rewrite app_nil_r.
    change ([] ++ dot_space ++ r) with (46%N :: 32%N :: r).
    simpl. destruct r; reflexivity.
  - pose proof (starts_with_dot_space_app a r c H) as Hs.
    change ((c :: a) ++ dot_space ++ r) with (c :: (a ++ dot_space ++ r)) in *.
    cbn [split_from]. rewrite Hs.
    rewrite IH by (eapply contains_tail; eassumption).
    simpl. rewrite <- app_assoc. reflexivity.
Qed.

Lemma split_dot_space_none (p : jsstr) :
  contains dot_space p = false -> split dot_space p = [p].
Proof.
  intros H. unfold split. change dot_space with [46%N; 32%N] at 1.
  cbv iota. apply (split_from_absent _ [] p H).
Qed.

Lemma split_dot_space_cons (a r : jsstr) :
  contains dot_space a = false ->
  split dot_space (a ++ dot_space ++ r) = a :: split dot_space r.
Proof.
  intros H. unfold split. change dot_space with [46%N; 32%N] at 1 4.
  cbv iota. apply (split_from_dot_space a r [] H).
Qed.

(** *** Counting words with [split(/\s+/)] *)

Lemma split_ws_from_length (b : bool) (piece s : jsstr) :
  length (split_ws_from b piece s)
  = (count_words b s + (if b then 0 else 1) + (if ends_ws b s then 1 else 0))%nat.
Proof.
  revert b piece. induction s as [|c s IH]; intros b piece; simpl.
  - destruct b; reflexivity.
  - destruct (is_space c) eqn:Hc.
    + destruct b; simpl; rewrite IH; simpl; lia.
    + rewrite IH. destruct b; simpl; lia.
Qed.

Lemma ends_ws_last (b : bool) (x : jsstr) (c : N) :
  ends_ws b (x ++ [c]) = is_space c.
Proof.
  revert b. induction x as [|a x IH]; intros b; simpl; [reflexivity|apply IH].
Qed.

Lemma trim_start_head (s : jsstr) :
  match trim_start s with
  | [] => True
  | c :: _ => is_space c = false
  end.
Proof.
  induction s as [|c s IH]; simpl; [exact I|].
  destruct (is_space c) eqn:Hc; [exact IH|exact Hc].
Qed.

Lemma trim_start_snoc (x : jsstr) (c : N) :
  is_space c = false -> trim_start (x ++ [c]) = trim_start x ++ [c].
Proof.
  intros Hc. induction x as [|a x IH]; simpl.
  - rewrite Hc. reflexivity.
  - destruct (is_space a); [exact IH|reflexivity].
Qed.

(** A trimmed string is empty, or begins and ends with code units that
    are not white space. *)
Lemma trim_shape (s : jsstr) :
  match trim s with
  | [] => True
  | c :: y => is_space c = false /\ ends_ws false y = false
  end.
Proof.
  unfold trim. pose proof (trim_start_head s) as Hhead.
  destruct (trim_start s) as [|c0 t]; [exact I|].
  change (rev (c0 :: t)) with (rev t ++ [c0]).
  rewrite trim_start_snoc by assumption.
  rewrite rev_app_distr. simpl. split; [assumption|].
  pose proof (trim_start_head (rev t)) as Hlast.
  destruct (trim_start (rev t)) as [|d u]; [reflexivity|].
  simpl. rewrite ends_ws_last. exact Hlast.
Qed.

(** On a trimmed string [split(/\s+/)] gives one piece per word, and one
    (empty) piece when there is no word. *)
Lemma split_ws_trim_length (t : jsstr) :
  length (split_ws (trim t)) = Nat.max 1 (word_count (trim t)).
Proof.
  pose proof (trim_shape t) as H. unfold split_ws, word_count.
  destruct (trim t) as [|c y]; [reflexivity|].
  destruct H as [Hc Hy]. simpl. rewrite Hc.
  rewrite split_ws_from_length, Hy. simpl. lia.
Qed.

Lemma count_words_trim_start (s : jsstr) :
  count_words true (trim_start s) = count_words true s.
Proof.
  induction s as [|c s IH]; simpl; [reflexivity|].
  destruct (is_space c) eqn:Hc; [exact IH|].
  simpl. rewrite Hc. reflexivity.
Qed.

Lemma count_words_snoc_space (b : bool) (x : jsstr) (c : N) :
  is_space c = true -> count_words b (x ++ [c]) = count_words b x.
Proof.
  intros Hc. revert b. induction x as [|a x IH]; intros b; simpl.
  - rewrite Hc. reflexivity.
  - destruct (is_space a); rewrite IH; reflexivity.
Qed.

Lemma count_words_trim_end (b : bool) (r : jsstr) :
  count_words b (rev (trim_start r)) = count_words b (rev r).
Proof.
  induction r as [|c r IH]; simpl; [reflexivity|].
  destruct (is_space c) eqn:Hc; [|reflexivity].
  rewrite count_words_snoc_space by assumption. exact IH.
Qed.

(** Trimming removes no word. *)
Lemma word_count_trim (t : jsstr) : word_count (trim t) = word_count t.
Proof.
  unfold word_count, trim.
  rewrite count_words_trim_end, rev_involutive.
  apply count_words_trim_start.
Qed.

(** The filter of [extractSummary] keeps the paragraphs of at least 20
    words. *)
Lemma long_enough_words (t : jsstr) :
  long_enough (trim t) = (20 <=? word_count t)%nat.
Proof.
  unfold long_enough. rewrite split_ws_trim_length, word_count_trim.
  destruct (word_count t) as [|n]; [reflexivity|].
  rewrite Nat.max_r by lia. reflexivity.
Qed.

(** ** Summary extraction *)

Lemma filter_first {A : Type} (f : A -> bool) (pre : list A) (p : A)
  (post : list A) :
  Forall (fun q => f q = false) pre -> f p = true ->
  filter f (pre ++ p :: post) = p :: filter f post.
Proof.
  intros Hpre Hp. induction Hpre as [|q pre Hq _ IH]; simpl.
  - rewrite Hp. reflexivity.
  - rewrite Hq. exact IH.
Qed.

Lemma filter_none {A : Type} (f : A -> bool) (l : list A) :
  Forall (fun q => f q = false) l -> filter f l = [].
Proof.
  intros H. induction H as [|q l Hq _ IH]; simpl; [reflexivity|].
  rewrite Hq. exact IH.
Qed.

Lemma filter_Boolean_first (l : list (option jsstr)) (x : jsstr) :
  first_nonempty l = Some x -> exists rest, filter_Boolean l = x :: rest.
Proof.
  induction l as [|[[|c s]|] l IH]; simpl; intros H; try discriminate; auto.
  inversion H. eauto.
Qed.

Lemma filter_Boolean_none (l : list (option jsstr)) :
  first_nonempty l = None -> filter_Boolean l = [].
Proof.
  induction l as [|[[|c s]|] l IH]; simpl; intros H; try discriminate; auto.
Qed.

Lemma attr_head (el : Node) (rest : list Node) (k : jsstr) :
  attr (el :: rest) k = attr [el] k.
Proof. destruct el; reflexivity. Qed.

(** Without a description the three candidates are absent or empty. *)
Lemma no_description_candidates (doc : Document) :
  no_description doc -> first_nonempty (candidates doc) = None.
Proof.
  intros H. unfold candidates.
  assert (Hone : forall sel,
             (forall el, In el sel ->
                In el (query meta_description doc ++ query meta_og_description doc
                       ++ query meta_twitter_description doc)) ->
             match attr sel (lit "content") with
             | Some (_ :: _) => False
             | _ => True
             end).
  { intros sel Hin. destruct sel as [|el rest]; [exact I|].
    rewrite attr_head. destruct (attr [el] (lit "content")) as [[|c x]|] eqn:Ha;
      try exact I.
    specialize (H el (c :: x) (Hin el (or_introl eq_refl)) Ha). discriminate. }
  pose proof (Hone (query meta_description doc)) as H1.
  pose proof (Hone (query meta_og_description doc)) as H2.
  pose proof (Hone (query meta_twitter_description doc)) as H3.
  cbn [first_nonempty].
  destruct (attr (query meta_description doc) (lit "content")) as [[|? ?]|].
  2:{ exfalso. apply H1. intros el Hel. apply in_or_app. left. exact Hel. }
  all: destruct (attr (query meta_og_description doc) (lit "content")) as [[|? ?]|].
  all: try (exfalso; apply H2; intros el Hel; apply in_or_app; right;
            apply in_or_app; left; exact Hel).
  all: destruct (attr (query meta_twitter_description doc) (lit "content"))
         as [[|? ?]|].
  all: try reflexivity.
  all: exfalso; apply H3; intros el Hel; apply in_or_app; right;
       apply in_or_app; right; exact Hel.
Qed.

Lemma paragraphs_texts (doc : Document) :
  paragraphs doc
  = map trim (filter (fun t => (20 <=? word_count t)%nat) (paragraph_texts doc)).
Proof.
  unfold paragraphs, paragraph_texts.
  induction (query (by_tag (lit "p")) doc) as [|el l IH]; [reflexivity|].
  cbn [map filter]. rewrite long_enough_words.
  destruct (20 <=? word_count (text el))%nat; cbn [map]; rewrite IH;
    reflexivity.
Qed.

Lemma summary_of_meta (doc : Document) (x : jsstr) :
  first_nonempty (candidates doc) = Some x -> summary_of doc = x.
Proof.
  intros H. unfold summary_of, metaTags.
  destruct (filter_Boolean_first _ _ H) as [rest ->]. reflexivity.
Qed.

Lemma summary_of_paragraph (doc : Document) (pre : list jsstr) (t : jsstr)
  (post : list jsstr) :
  first_nonempty (candidates doc) = None ->
  paragraph_texts doc = pre ++ t :: post ->
  Forall (fun q => (word_count q < 20)%nat) pre ->
  (20 <= word_count t)%nat ->
  summary_of doc
  = join dot_space (firstn 2 (split dot_space (trim t))) ++ lit ".".
Proof.
  intros Hmeta Htexts Hpre Ht. unfold summary_of, metaTags.
  rewrite (filter_Boolean_none _ Hmeta), paragraphs_texts, Htexts.
  rewrite filter_first.
  - cbn [map]. cbv zeta. rewrite slice0_firstn by lia. reflexivity.
  - eapply Forall_impl; [|exact Hpre]. intros q Hq. cbv beta in Hq.
    apply Nat.leb_gt. exact Hq.
  - apply Nat.leb_le. exact Ht.
Qed.

Lemma summary_of_nothing (doc : Document) :
  first_nonempty (candidates doc) = None ->
  Forall (fun q => (word_count q < 20)%nat) (paragraph_texts doc) ->
  summary_of doc = lit "".
Proof.
  intros Hmeta Hall. unfold summary_of, metaTags.
  rewrite (filter_Boolean_none _ Hmeta), paragraphs_texts.
  rewrite filter_none; [reflexivity|].
  eapply Forall_impl; [|exact Hall]. intros q Hq. cbv beta in Hq.
  apply Nat.leb_gt. exact Hq.
Qed.

Section FetchedPage.

(** The page fetch is answered with a successful response whose body
    parses to [doc]. *)
Variables (net : Network) (st : State) (url : JSON) (res : Response)
  (doc : Document).
Hypothesis Hanswer : net (length (calls st)) (browser_get url) = Resolved res.
Hypothesis Hok : res_ok res = true.
Hypothesis Hdom : res_dom res = Some doc.

Lemma extractSummary_fetched : extractSummary_returns net st url (summary_of doc).
Proof using Hanswer Hok Hdom.
  unfold extractSummary_returns, PerStory.extractSummary,
    Digest.extractSummary, try_catch, bind, fetch, load_text.
  rewrite Hanswer, Hok, Hdom. split; reflexivity.
Qed.

(** C1, as the code has it: when the first meta description element
    of the page has a content that is not empty, [extractSummary]
    returns exactly that content, whatever the paragraphs are; in
    general it returns the first of the three candidates (the content
    of the first [meta name=description], of the first
    [meta property=og:description] and of the first
    [meta name=twitter:description] element, in that order) that is
    neither absent nor empty. *)
Theorem meta_description_preferred :
  (forall x, attr (query meta_description doc) (lit "content") = Some x ->
             x <> [] -> extractSummary_returns net st url x)
  /\ (forall x, first_nonempty (candidates doc) = Some x ->
                extractSummary_returns net st url x).
Proof using Hanswer Hok Hdom.
  assert (Hgen : forall x, first_nonempty (candidates doc) = Some x ->
                           extractSummary_returns net st url x).
  { intros x Hx. rewrite <- (summary_of_meta doc x Hx).
    exact extractSummary_fetched. }
  split; [|exact Hgen].
  intros x Hx Hne. apply Hgen. unfold candidates. rewrite Hx.
  destruct x; [congruence|reflexivity].
Qed.

(** C2: on a page without a description, [extractSummary] takes the
    first paragraph, in document order, whose trimmed text has at
    least 20 words, splits it at ". ", keeps at most the first two
    pieces and returns them joined by ". " with a period appended; a
    paragraph "A. B. C." gives "A. B."; when no paragraph has 20 words
    the result is the empty string. *)
Theorem fallback_first_long_paragraph :
  no_description doc ->
  (forall pre t post,
      paragraph_texts doc = pre ++ t :: post ->
      Forall (fun q => (word_count (trim q) < 20)%nat) pre ->
      (20 <= word_count (trim t))%nat ->
      extractSummary_returns net st url
        (join dot_space (firstn 2 (split dot_space (trim t))) ++ lit ".")
      /\ (forall a b c,
             trim t = a ++ dot_space ++ b ++ dot_space ++ c ->
             contains dot_space a = false ->
             contains dot_space b = false ->
             extractSummary_returns net st url
               (a ++ dot_space ++ b ++ lit ".")))
  /\ (Forall (fun q => (word_count (trim q) < 20)%nat) (paragraph_texts doc) ->
      extractSummary_returns net st url (lit "")).
Proof using Hanswer Hok Hdom.
  intros Hno. apply no_description_candidates in Hno. split.
  - intros pre t post Htexts Hpre Ht.
    assert (Hsum : summary_of doc
                   = join dot_space (firstn 2 (split dot_space (trim t)))
                     ++ lit ".").
    { apply (summary_of_paragraph doc pre t post Hno Htexts).
      - eapply Forall_impl; [|exact Hpre]. intros q Hq. cbv beta in Hq.
        rewrite word_count_trim in Hq. exact Hq.
      - rewrite word_count_trim in Ht. exact Ht. }
    split.
    + rewrite <- Hsum. exact extractSummary_fetched.
    + intros a b c Hshape Ha Hb.
      replace (a ++ dot_space ++ b ++ lit ".") with (summary_of doc);
        [exact extractSummary_fetched|].
      rewrite Hsum, Hshape.
      rewrite (split_dot_space_cons a _ Ha), (split_dot_space_cons b _ Hb).
      cbn [firstn join]. rewrite <- !app_assoc. reflexivity.
  - intros Hall. rewrite <- (summary_of_nothing doc Hno).
    + exact extractSummary_fetched.
    + eapply Forall_impl; [|exact Hall]. intros q Hq. cbv beta in Hq.
      rewrite word_count_trim in Hq. exact Hq.
Qed.

(** C9: when the paragraph the fallback takes contains no ". ",
    [extractSummary] returns its whole (trimmed) text with one more
    period, so a text that ends in a period gives a result that ends
    in two. *)
Theorem fallback_single_sentence (pre : list jsstr) (t : jsstr)
  (post : list jsstr) :
  first_nonempty (candidates doc) = None ->
  paragraph_texts doc = pre ++ t :: post ->
  Forall (fun q => (word_count (trim q) < 20)%nat) pre ->
  (20 <= word_count (trim t))%nat ->
  contains dot_space (trim t) = false ->
  extractSummary_returns net st url (trim t ++ lit ".")
  /\ (forall y, trim t = y ++ lit "." ->
                extractSummary_returns net st url (y ++ lit "..")).
Proof using Hanswer Hok Hdom.
  intros Hno Htexts Hpre Ht Hnone.
  assert (Hsum : summary_of doc = trim t ++ lit ".").
  { rewrite (summary_of_paragraph doc pre t post Hno Htexts).
    - rewrite (split_dot_space_none _ Hnone). reflexivity.
    - eapply Forall_impl; [|exact Hpre]. intros q Hq. cbv beta in Hq.
      rewrite word_count_trim in Hq. exact Hq.
    - rewrite word_count_trim in Ht. exact Ht. }
  split.
  - rewrite <- Hsum. exact extractSummary_fetched.
  - intros y Hy. replace (y ++ lit "..") with (summary_of doc);
      [exact extractSummary_fetched|].
    rewrite Hsum, Hy, <- app_assoc. reflexivity.
Qed.

End FetchedPage.

Lemma meta_description_preferred_witness :
  extractSummary_returns (serve_page page_described) initial article_url (lit "X")
  /\ extractSummary_returns (serve_page page_graph) initial article_url
       (lit "from the graph").
Proof.
  split.
  - apply (proj1 (meta_description_preferred (serve_page page_described)
                    initial article_url
                    (mkResponse true 200 None (Some page_described))
                    page_described eq_refl eq_refl eq_refl));
      [reflexivity|discriminate].
  - apply (proj2 (meta_description_preferred (serve_page page_graph)
                    initial article_url
                    (mkResponse true 200 None (Some page_graph))
                    page_graph eq_refl eq_refl eq_refl)).
    reflexivity.
Defined.

(** C1 as stated fails: a page may contain a meta description element
    with a content that is not empty and still get another summary,
    because [attr] reads the first element of the selection only. *)
Lemma any_description_element_counterexample :
  ~ (forall net st url res doc el x,
        net (length (calls st)) (browser_get url) = Resolved res ->
        res_ok res = true ->
        res_dom res = Some doc ->
        In el (query meta_description doc) ->
        attr [el] (lit "content") = Some x ->
        x <> [] ->
        extractSummary_returns net st url x).
Proof.
  intros H.
  specialize (H (serve_page page_twice_described) initial article_url
                (mkResponse true 200 None (Some page_twice_described))
                page_twice_described (meta_el "name" "description" "X") (lit "X")
                eq_refl eq_refl eq_refl).
  destruct H as [H _].
  - vm_compute. right. left. reflexivity.
  - reflexivity.
  - discriminate.
  - vm_compute in H. discriminate.
Qed.

Lemma no_description_page_prose : no_description page_prose.
Proof.
  intros el x Hin Hattr. vm_compute in Hin.
  destruct Hin as [<-|[]]. vm_compute in Hattr. congruence.
Qed.

Lemma no_description_page_captions : no_description page_captions.
Proof.
  intros el x Hin Hattr. vm_compute in Hin.
  destruct Hin as [<-|[]]. vm_compute in Hattr. congruence.
Qed.

Lemma fallback_first_long_paragraph_witness :
  extractSummary_returns (serve_page page_prose) initial article_url
    (lit "one two three four five six seven eight. nine ten eleven twelve thirteen fourteen fifteen sixteen.")
  /\ extractSummary_returns (serve_page page_captions) initial article_url
       (lit "").
Proof.
  split.
  - destruct (fallback_first_long_paragraph (serve_page page_prose) initial
                article_url (mkResponse true 200 None (Some page_prose))
                page_prose eq_refl eq_refl eq_refl no_description_page_prose)
      as [Hfirst _].
    destruct (Hfirst [lit "Menu"] (lit (" " ++ prose ++ " "))
                [lit one_sentence]) as [_ Hshape].
    + reflexivity.
    + repeat constructor.
    + vm_compute. repeat constructor.
    + apply (Hshape (lit "one two three four five six seven eight")
               (lit "nine ten eleven twelve thirteen fourteen fifteen sixteen")
               (lit "seventeen eighteen nineteen twenty twentyone twentytwo twentythree twentyfour twentyfive."));
        reflexivity.
  - destruct (fallback_first_long_paragraph (serve_page page_captions) initial
                article_url (mkResponse true 200 None (Some page_captions))
                page_captions eq_refl eq_refl eq_refl
                no_description_page_captions) as [_ Hnone].
    apply Hnone. vm_compute. repeat constructor.
Defined.

Lemma fallback_single_sentence_witness :
  extractSummary_returns (serve_page page_one_sentence) initial article_url
    (lit "one two three four five six seven eight nine ten eleven twelve thirteen fourteen fifteen sixteen seventeen eighteen nineteen twenty..").
Proof.
  destruct (fallback_single_sentence (serve_page page_one_sentence) initial
              article_url (mkResponse true 200 None (Some page_one_sentence))
              page_one_sentence eq_refl eq_refl eq_refl
              [lit "Menu"] (lit one_sentence) []) as [_ Hdouble].
  - reflexivity.
  - reflexivity.
  - vm_compute. repeat constructor.
  - vm_compute. repeat constructor.
  - reflexivity.
  - apply (Hdouble (lit "one two three four five six seven eight nine ten eleven twelve thirteen fourteen fifteen sixteen seventeen eighteen nineteen twenty")).
    reflexivity.
Defined.

(** ** What one step of the per-story loop does *)

Lemma perstory_fetchJSON_spec (url : jsstr) (net : Network) (st : State) :
  exists lines,
    PerStory.fetchJSON url net st
    = (Ok (item_of (net (length (calls st)) (plain_get url))),
       mkState (calls st ++ [(plain_get url, net (length (calls st)) (plain_get url))])
         (console st ++ lines) (replied st)).
Proof.
  unfold PerStory.fetchJSON, try_catch, bind, fetch, json, item_of,
    console_error, throw, ret.
  destruct (net (length (calls st)) (plain_get url)) as [|res]; cbn.
  - eexists. reflexivity.
  - destruct (res_ok res); cbn.
    + destruct (res_json res); cbn.
      * exists []. rewrite app_nil_r. reflexivity.
      * eexists. reflexivity.
    + eexists. reflexivity.
Qed.

(** The per-story [extractSummary] returns on every network, and a fetch
    that fails in any way gives the empty string. *)
Lemma perstory_extractSummary_spec (u : JSON) (net : Network) (st : State) :
  exists lines,
    PerStory.extractSummary u net st
    = (Ok (summary_for (net (length (calls st)) (browser_get u))),
       mkState (calls st ++ [(browser_get u, net (length (calls st)) (browser_get u))])
         (console st ++ lines) (replied st)).
Proof.
  unfold PerStory.extractSummary, try_catch, bind, fetch, load_text,
    summary_for, console_error, throw, ret.
  destruct (net (length (calls st)) (browser_get u)) as [|res]; cbn.
  - eexists. reflexivity.
  - destruct (res_ok res); cbn.
    + destruct (res_dom res); cbn.
      * exists []. rewrite app_nil_r. reflexivity.
      * eexists. reflexivity.
    + exists []. rewrite app_nil_r. reflexivity.
Qed.

(** The guarded call of [sendNotification] returns whatever the relay
    does; it makes at most one call, a POST whose [Click] header is the
    link of the story. *)
Lemma perstory_send_spec (cfg : PerStory.Config) (story : PerStory.Story)
  (net : Network) (st : State) :
  exists posts lines,
    try_catch (PerStory.sendNotification cfg story)
      (fun err => console_error (LogError err)) net st
    = (Ok tt, mkState (calls st ++ posts) (console st ++ lines) (replied st))
    /\ Forall (fun c => is_post c = true
                        /\ linked c = truthy (PerStory.url story)) posts
    /\ (length posts <= 1)%nat.
Proof.
  unfold PerStory.sendNotification, try_catch, bind, fetch, or_type_error,
    console_error, throw, ret.
  destruct (to_string (PerStory.url story)) as [u|]; cbn.
  - destruct (net (length (calls st)) _) as [|res]; cbn.
    + do 2 eexists. split; [reflexivity|].
      split; [repeat constructor|cbn; lia].
    + destruct (res_ok res); cbn.
      * eexists _, []. rewrite (app_nil_r (console st)).
        split; [reflexivity|]. split; [repeat constructor|cbn; lia].
      * destruct (to_string_val (PerStory.title story)); cbn;
          do 2 eexists; (split; [reflexivity|]);
          (split; [repeat constructor|cbn; lia]).
  - exists [], [LogError TypeError]. rewrite app_nil_r.
    split; [reflexivity|]. split; [constructor|cbn; lia].
Qed.

Lemma bind_ok {A B : Type} (m : M A) (k : A -> M B) (net : Network)
  (st : State) (a : A) (st' : State) :
  m net st = (Ok a, st') -> bind m k net st = k a net st'.
Proof. intros H. unfold bind. rewrite H. reflexivity. Qed.

Lemma bind_throw {A B : Type} (m : M A) (k : A -> M B) (net : Network)
  (st : State) (err : Error) (st' : State) :
  m net st = (Throw err, st') -> bind m k net st = (Throw err, st').
Proof. intros H. unfold bind. rewrite H. reflexivity. Qed.

Lemma try_ok {A : Type} (m : M A) (h : Error -> M A) (net : Network)
  (st : State) (a : A) (st' : State) :
  m net st = (Ok a, st') -> try_catch m h net st = (Ok a, st').
Proof. intros H. unfold try_catch. rewrite H. reflexivity. Qed.

Lemma try_throw {A : Type} (m : M A) (h : Error -> M A) (net : Network)
  (st : State) (err : Error) (st' : State) :
  m net st = (Throw err, st') -> try_catch m h net st = h err net st'.
Proof. intros H. unfold try_catch. rewrite H. reflexivity. Qed.

Lemma story_url_truthy (item u : JSON) :
  story_url item = Some u -> truthy u = true.
Proof.
  unfold story_url. destruct (truthy item); [|discriminate].
  destruct (get item (lit "url")) as [v|]; [|discriminate].
  destruct (truthy v) eqn:Hv; [|discriminate].
  intros H. injection H as <-. exact Hv.
Qed.

Lemma perstory_visit_spec (cfg : PerStory.Config) (id : JSON) (i : jsstr)
  (sent : Z) (net : Network) (st : State) :
  to_string id = Some i ->
  let c := (plain_get (item_url i),
            net (length (calls st)) (plain_get (item_url i))) in
  exists more lines,
    PerStory.visit cfg id sent net st
    = (Ok (sent + (if gave_story c then 1 else 0)),
       mkState (calls st ++ c :: more) (console st ++ lines) (replied st))
    /\ Forall (fun c' => is_api_call c' = false /\ linked c' = true) more
    /\ (if gave_story c
        then length (filter is_page_call more) = 1%nat
             /\ (length (filter is_post more) <= 1)%nat
        else more = []).
Proof.
  intros Hid c. unfold PerStory.visit.
  rewrite (bind_ok _ _ net st i st)
    by (unfold or_type_error; rewrite Hid; reflexivity).
  destruct (perstory_fetchJSON_spec (item_url i) net st) as [l1 H1].
  rewrite (bind_ok _ _ _ _ _ _ H1).
  fold c. unfold gave_story. change (is_api_call c) with true.
  change (snd c) with (net (length (calls st)) (plain_get (item_url i))).
  cbn [andb].
  destruct (story_url (item_of (net (length (calls st)) (plain_get (item_url i)))))
    as [u|] eqn:Hu.
  - apply story_url_truthy in Hu.
    match goal with
    | |- context [bind (PerStory.extractSummary u) _ net ?s] =>
        destruct (perstory_extractSummary_spec u net s) as [l2 H2]
    end.
    rewrite (bind_ok _ _ _ _ _ _ H2).
    cbv beta.
    match goal with
    | |- context [bind (try_catch (PerStory.sendNotification cfg ?story) _) _
                    net ?s] =>
        destruct (perstory_send_spec cfg story net s)
          as (posts & l3 & H3 & Hposts & Hlen)
    end.
    rewrite (bind_ok _ _ _ _ _ _ H3). unfold ret. cbn [calls console replied].
    cbn [PerStory.url] in Hposts. rewrite Hu in Hposts.
    assert (Hnopage : filter is_page_call posts = []).
    { apply filter_none. eapply Forall_impl; [|exact Hposts].
      intros [req o] [Hp _]. unfold is_post, is_page_call in *. cbn in *.
      destruct (req_method req); [discriminate|reflexivity]. }
    eexists (_ :: posts), (l1 ++ l2 ++ l3). split; [|split; [|split]].
    + rewrite <- !app_assoc. reflexivity.
    + constructor; [split; [reflexivity|exact Hu]|].
      eapply Forall_impl; [|exact Hposts].
      intros [req o] [Hp Hl]. split; [|exact Hl].
      unfold is_post, is_api_call in *. cbn in *.
      destruct (req_method req); [discriminate|reflexivity].
    + cbn [filter]. change (is_page_call (browser_get u, _)) with true.
      cbv iota. rewrite Hnopage. reflexivity.
    + cbn [filter]. change (is_post (browser_get u, _)) with false. cbv iota.
      pose proof (filter_length_le is_post posts). lia.
  - unfold ret. exists [], l1. rewrite Z.add_0_r.
    split; [|split]; [reflexivity|constructor|reflexivity].
Qed.

Lemma gave_story_api (c : Request * Outcome) :
  is_api_call c = false -> gave_story c = false.
Proof. unfold gave_story. intros ->. reflexivity. Qed.

(** The loop over printable identifiers: it visits every one of them
    and counts the item fetches that gave a story. *)
Lemma perstory_loop_spec (cfg : PerStory.Config) (net : Network)
  (ids : list JSON) (names : list jsstr) :
  map to_string ids = map Some names ->
  forall sent st,
  exists new lines,
    for_of ids sent (PerStory.visit cfg) net st
    = (Ok (sent + Z.of_nat (length (filter gave_story new))),
       mkState (calls st ++ new) (console st ++ lines) (replied st))
    /\ map fst (filter is_api_call new)
       = map (fun i => plain_get (item_url i)) names
    /\ length (filter is_page_call new) = length (filter gave_story new)
    /\ (length (filter is_post new) <= length (filter gave_story new))%nat
    /\ Forall (fun c => linked c = true) new.
Proof.
  revert names. induction ids as [|id ids IH]; intros names Hnames sent st.
  - destruct names; [|discriminate]. exists [], [].
    cbn. rewrite !app_nil_r, Z.add_0_r. destruct st. auto.
  - destruct names as [|i names]; [discriminate|].
    cbn [map] in Hnames. injection Hnames as Hid Hrest.
    destruct (perstory_visit_spec cfg id i sent net st Hid)
      as (more & l1 & Hvisit & Hmore & Hposts).
    cbn [for_of]. rewrite (bind_ok _ _ _ _ _ _ Hvisit).
    match goal with |- context [for_of ids ?n _ net ?s] =>
      destruct (IH names Hrest n s)
        as (new & l2 & Hloop & Hapi & Hpages & Hcount & Hlinked) end.
    rewrite Hloop. cbn [calls console replied].
    set (c := (plain_get (item_url i),
               net (length (calls st)) (plain_get (item_url i)))) in *.
    assert (Hmore_api : filter is_api_call more = []).
    { apply filter_none. eapply Forall_impl; [|exact Hmore].
      intros c' [Hc' _]. exact Hc'. }
    assert (Hmore_story : filter gave_story more = []).
    { apply filter_none. eapply Forall_impl; [|exact Hmore].
      intros c' [Hc' _]. apply gave_story_api. exact Hc'. }
    exists (c :: more ++ new), (l1 ++ l2). repeat split.
    + rewrite <- !app_assoc. cbn [app filter].
      rewrite filter_app, Hmore_story. cbn [app].
      destruct (gave_story c); cbn [length]; f_equal; f_equal; lia.
    + cbn [filter]. change (is_api_call c) with true. cbv iota.
      rewrite filter_app, Hmore_api. cbn [app map fst].
      rewrite Hapi. reflexivity.
    + cbn [filter]. change (is_page_call c) with false. cbv iota.
      rewrite !filter_app, Hmore_story, !length_app. cbn [app].
      destruct (gave_story c); cbn [length].
      * destruct Hposts as [Hone _]. lia.
      * subst more. cbn. lia.
    + cbn [filter]. change (is_post c) with false. cbv iota.
      rewrite !filter_app, Hmore_story, length_app. cbn [app].
      destruct (gave_story c); cbn [length].
      * lia.
      * subst more. cbn. lia.
    + constructor; [reflexivity|]. apply Forall_app. split; [|exact Hlinked].
      eapply Forall_impl; [|exact Hmore]. intros c' [_ Hc']. exact Hc'.
Qed.

Lemma slice0_map {A B : Type} (f : A -> B) (l : list A) (e : Z) :
  slice0 (map f l) e = map f (slice0 l e).
Proof.
  unfold slice0. rewrite length_map. apply firstn_map.
Qed.

(** ** The per-story run on a list of integer identifiers *)

Lemma perstory_handler_spec (cfg : PerStory.Config) (net : Network)
  (ids : list Z) :
  item_of (net 0%nat (plain_get topstories_url)) = JArr (map JNum ids) ->
  exists visits,
    calls (PerStory.run cfg net) = topstories_call net :: visits
    /\ replied (PerStory.run cfg net)
       = Some (success_sent (Z.of_nat (length (filter gave_story visits))))
    /\ map fst (filter is_api_call visits)
       = map item_request (slice0 ids (PerStory.LIMIT cfg))
    /\ length (filter is_page_call visits) = length (filter gave_story visits)
    /\ (length (filter is_post visits) <= length (filter gave_story visits))%nat
    /\ Forall (fun c => linked c = true) visits.
Proof.
  intros Hids. unfold PerStory.run, PerStory.handler.
  destruct (perstory_fetchJSON_spec topstories_url net initial) as [l0 H0].
  cbn [calls console replied initial length app] in H0.
  rewrite Hids in H0.
  assert (Hnames : map to_string (slice0 (map JNum ids) (PerStory.LIMIT cfg))
                   = map Some (map string_of_Z (slice0 ids (PerStory.LIMIT cfg)))).
  { rewrite slice0_map, !map_map. reflexivity. }
  match type of H0 with _ = (_, ?s) =>
    destruct (perstory_loop_spec cfg net _ _ Hnames 0 s)
      as (visits & l1 & Hloop & Hapi & Hpages & Hposts & Hlinked) end.
  exists visits.
  erewrite try_ok.
  2:{ rewrite (bind_ok _ _ _ _ _ _ H0). cbv beta iota.
      rewrite (bind_ok _ _ _ _ _ _ Hloop). reflexivity. }
  cbn [snd calls replied app]. rewrite Z.add_0_l.
  rewrite map_map in Hapi.
  repeat split; assumption.
Qed.




Example sent_is_zero_when_item_fails :
  replied (PerStory.run limit_2 net_item_fails) = Some (success_sent 0).
Proof. reflexivity. Qed.

(** C10: a [STORY_LIMIT] of "0", an unset one and one that is not a
    number all give the limit 10; no environment gives the limit 0; and
    such a run fetches the first ten items of the list. *)
Theorem limit_zero_means_ten :
  (forall env,
      STORY_LIMIT env = Some (lit "0") \/ STORY_LIMIT env = None
      \/ parseInt (STORY_LIMIT env) = None ->
      PerStory.LIMIT (PerStory.config env) = 10)
  /\ (forall env, PerStory.LIMIT (PerStory.config env) <> 0)
  /\ (forall env net ids,
        STORY_LIMIT env = Some (lit "0") \/ STORY_LIMIT env = None
        \/ parseInt (STORY_LIMIT env) = None ->
        item_of (net 0%nat (plain_get topstories_url)) = JArr (map JNum ids) ->
        map fst (filter is_api_call (calls (PerStory.run (PerStory.config env) net)))
        = plain_get topstories_url :: map item_request (firstn 10 ids)).
Proof.
  assert (Hten : forall env,
             STORY_LIMIT env = Some (lit "0") \/ STORY_LIMIT env = None
             \/ parseInt (STORY_LIMIT env) = None ->
             PerStory.LIMIT (PerStory.config env) = 10).
  { intros env H. cbn [PerStory.config PerStory.LIMIT].
    destruct H as [H | [H | H]]; rewrite H; reflexivity. }
  split; [exact Hten|]. split.
  - intros env. cbn [PerStory.config PerStory.LIMIT]. unfold num_or.
    destruct (parseInt (STORY_LIMIT env)) as [z|]; [|discriminate].
    destruct (z =? 0) eqn:Hz; [discriminate|].
    apply Z.eqb_neq. exact Hz.
  - intros env net ids H Hids.
    destruct (perstory_handler_spec (PerStory.config env) net ids Hids)
      as (visits & Hcalls & _ & Hapi & _).
    rewrite Hcalls. cbn [filter]. change (is_api_call (topstories_call net))
      with true. cbv iota. cbn [map fst topstories_call].
    rewrite Hapi, (Hten env H). rewrite slice0_firstn by lia. reflexivity.
Qed.

Lemma limit_zero_means_ten_witness :
  PerStory.LIMIT (PerStory.config env_limit_0) = 10
  /\ map fst (filter is_api_call
                (calls (PerStory.run (PerStory.config env_limit_0) net_twelve)))
     = plain_get topstories_url
       :: map item_request [1; 2; 3; 4; 5; 6; 7; 8; 9; 10].
Proof.
  destruct limit_zero_means_ten as (Hten & _ & Hrun). split.
  - apply Hten. left. reflexivity.
  - apply (Hrun env_limit_0 net_twelve twelve); [left|]; reflexivity.
Defined.

(** ** Skipping items without a link *)


Lemma for_of_result_invariant {X A : Type} (Q : A -> Prop)
  (body : X -> A -> M A) :
  (forall x acc net st acc',
      Q acc -> fst (body x acc net st) = Ok acc' -> Q acc') ->
  forall l acc net st acc',
    Q acc -> fst (for_of l acc body net st) = Ok acc' -> Q acc'.
Proof.
  intros Hbody. induction l as [|x l IH]; intros acc net st acc' Hacc Hrun.
  - cbn in Hrun. injection Hrun as <-. exact Hacc.
  - cbn [for_of] in Hrun. unfold bind in Hrun.
    destruct (body x acc net st) as [[acc1|err] st1] eqn:Hstep.
    + apply (IH acc1 net st1 acc'); [|exact Hrun].
      apply (Hbody x acc net st acc1 Hacc). rewrite Hstep. reflexivity.
    + discriminate.
Qed.

Lemma for_of_state_invariant {X A : Type} (P : State -> Prop)
  (body : X -> A -> M A) :
  (forall x acc net st, P st -> P (snd (body x acc net st))) ->
  forall l acc net st, P st -> P (snd (for_of l acc body net st)).
Proof.
  intros Hbody. induction l as [|x l IH]; intros acc net st Hst.
  - exact Hst.
  - cbn [for_of]. unfold bind.
    pose proof (Hbody x acc net st Hst) as Hstep.
    destruct (body x acc net st) as [[acc1|err] st1]; cbn [snd] in *.
    + apply IH. exact Hstep.
    + exact Hstep.
Qed.

(** What one step of the digest loop does: it fetches the item, and
    only for an item with a link the page; it returns the stories
    unchanged or with one story more, which has that link. *)
Lemma digest_visit_spec (id : JSON) (i : jsstr) (stories : list Digest.Story)
  (net : Network) (st : State) :
  to_string id = Some i ->
  let o := net (length (calls st)) (plain_get (item_url i)) in
  exists more,
    calls (snd (Digest.visit id stories net st))
    = calls st ++ (plain_get (item_url i), o) :: more
    /\ Forall (fun c' => is_page_call c' = true) more
    /\ (story_url (item_of o) = None -> more = [])
    /\ (fst (Digest.visit id stories net st) = Ok stories
        \/ (exists err, fst (Digest.visit id stories net st) = Throw err)
        \/ (exists story, fst (Digest.visit id stories net st)
                          = Ok (stories ++ [story])
                          /\ story_url (item_of o) = Some (Digest.url story))).
Proof.
  intros Hid. cbv zeta. unfold Digest.visit.
  rewrite (bind_ok _ _ net st i st)
    by (unfold or_type_error; rewrite Hid; reflexivity).
  unfold Digest.fetchJSON, Digest.extractSummary, bind, fetch, json, load_text,
    throw, ret, item_of.
  destruct (net (length (calls st)) (plain_get (item_url i))) as [|res];
    cbn [fst snd calls].
  { exists []. repeat split; eauto. }
  destruct (res_ok res); cbn [negb fst snd calls].
  2:{ exists []. repeat split; eauto. }
  destruct (res_json res) as [item|]; cbn [fst snd calls].
  2:{ exists []. repeat split; eauto. }
  destruct (story_url item) as [u|] eqn:Hu; cbn [fst snd calls].
  2:{ exists []. repeat split; eauto. }
  match goal with |- context [net ?n (browser_get u)] =>
    destruct (net n (browser_get u)) as [|res2] eqn:Hpage end;
    cbn [fst snd calls].
  { eexists [_]. rewrite <- app_assoc. split; [reflexivity|].
    split; [repeat constructor|]. split; [intros Hn; discriminate Hn|eauto]. }
  destruct (res_ok res2); cbn [negb fst snd calls].
  2:{ eexists [_]. rewrite <- app_assoc. split; [reflexivity|].
      split; [repeat constructor|]. split; [intros Hn; discriminate Hn|].
      right. right. eexists. split; reflexivity. }
  destruct (res_dom res2); cbn [fst snd calls].
  - eexists [_]. rewrite <- app_assoc. split; [reflexivity|].
    split; [repeat constructor|]. split; [intros Hn; discriminate Hn|].
    right. right. eexists. split; reflexivity.
  - eexists [_]. rewrite <- app_assoc. split; [reflexivity|].
    split; [repeat constructor|]. split; [intros Hn; discriminate Hn|eauto].
Qed.



(** ** The relay cannot change the course of a per-story run *)

Lemma same_course_length (st st' : State) :
  same_course st st' -> length (calls st) = length (calls st').
Proof.
  intros [H _]. rewrite <- (length_map fst (calls st)), H. apply length_map.
Qed.

Section Simulation.

Variables net net' : Network.
Hypothesis Hgets : same_gets net net'.

Lemma alike_ret {A : Type} (a : A) : alike net net' (ret a).
Proof. intros st st' H. split; [reflexivity|exact H]. Qed.

Lemma alike_throw {A : Type} (err : Error) : alike net net' (@throw A err).
Proof. intros st st' H. split; [reflexivity|exact H]. Qed.

Lemma alike_bind {A B : Type} (m : M A) (k : A -> M B) :
  alike net net' m -> (forall a, alike net net' (k a)) ->
  alike net net' (bind m k).
Proof.
  intros Hm Hk st st' H. unfold bind.
  destruct (Hm st st' H) as [Hres Hst].
  destruct (m net st) as [[a|err] s1], (m net' st') as [[a'|err'] s1'];
    cbn [fst snd] in *; try discriminate.
  - injection Hres as <-. apply Hk. exact Hst.
  - injection Hres as <-. split; [reflexivity|exact Hst].
Qed.

Lemma alike_try_catch {A : Type} (m : M A) (h : Error -> M A) :
  alike net net' m -> (forall err, alike net net' (h err)) ->
  alike net net' (try_catch m h).
Proof.
  intros Hm Hh st st' H. unfold try_catch.
  destruct (Hm st st' H) as [Hres Hst].
  destruct (m net st) as [[a|err] s1], (m net' st') as [[a'|err'] s1'];
    cbn [fst snd] in *; try discriminate.
  - split; assumption.
  - injection Hres as <-. apply Hh. exact Hst.
Qed.

Lemma alike_console_error (line : LogLine) :
  alike net net' (console_error line).
Proof. intros st st' H. split; [reflexivity|exact H]. Qed.

Lemma alike_respond (code : Z) (value : JSON) :
  alike net net' (respond code value).
Proof.
  intros st st' [H _]. split; [reflexivity|]. split; [exact H|reflexivity].
Qed.

Lemma alike_or_type_error {A : Type} (o : option A) :
  alike net net' (or_type_error o).
Proof. destruct o; [apply alike_ret|apply alike_throw]. Qed.

Lemma alike_json (res : Response) : alike net net' (json res).
Proof.
  unfold json. destruct (res_json res); [apply alike_ret|apply alike_throw].
Qed.

Lemma alike_load_text (res : Response) : alike net net' (load_text res).
Proof.
  unfold load_text. destruct (res_dom res); [apply alike_ret|apply alike_throw].
Qed.

(** A GET is answered alike by both networks. *)
Lemma alike_fetch_get (req : Request) :
  req_method req = GET -> alike net net' (fetch req).
Proof using Hgets.
  intros Hget st st' H. unfold fetch.
  rewrite <- (same_course_length st st' H), <- (Hgets _ req Hget).
  destruct H as [Hcalls Hreply].
  destruct (net (length (calls st)) req); cbn [fst snd];
    (split; [reflexivity|]); (split; [|exact Hreply]);
    cbn [calls]; rewrite !map_app, Hcalls; reflexivity.
Qed.

Lemma alike_for_of {X A : Type} (body : X -> A -> M A) (l : list X) :
  (forall x acc, alike net net' (body x acc)) ->
  forall acc, alike net net' (for_of l acc body).
Proof.
  intros Hbody. induction l as [|x l IH]; intros acc; cbn [for_of].
  - apply alike_ret.
  - apply alike_bind; [apply Hbody|exact IH].
Qed.

(** The guarded send returns on both networks, having made the same
    request, whatever each relay answered. *)
Lemma alike_guarded_send (cfg : PerStory.Config) (story : PerStory.Story) :
  alike net net'
    (try_catch (PerStory.sendNotification cfg story)
       (fun err => console_error (LogError err))).
Proof.
  intros st st' H. destruct H as [Hcalls Hreply].
  unfold same_course, PerStory.sendNotification, try_catch, bind, fetch,
    or_type_error, console_error, throw, ret.
  destruct (to_string (PerStory.url story)) as [u|]; cbn [fst snd].
  - destruct (net (length (calls st)) _) as [|res],
             (net' (length (calls st')) _) as [|res'];
      cbn [fst snd calls replied];
      try destruct (res_ok res); try destruct (res_ok res');
      cbn [negb fst snd calls replied];
      try destruct (to_string_val (PerStory.title story));
      cbn [fst snd calls replied];
      (split; [reflexivity|]); (split; [|exact Hreply]);
      rewrite !map_app, Hcalls; reflexivity.
  - split; [reflexivity|]. split; assumption.
Qed.

Ltac alike_step :=
  match goal with
  | |- alike _ _ (try_catch (PerStory.sendNotification _ _) _) =>
      apply alike_guarded_send
  | |- alike _ _ (bind _ _) => apply alike_bind; [|intro]
  | |- alike _ _ (try_catch _ _) => apply alike_try_catch; [|intro]
  | |- alike _ _ (ret _) => apply alike_ret
  | |- alike _ _ (throw _) => apply alike_throw
  | |- alike _ _ (console_error _) => apply alike_console_error
  | |- alike _ _ (respond _ _) => apply alike_respond
  | |- alike _ _ (or_type_error _) => apply alike_or_type_error
  | |- alike _ _ (json _) => apply alike_json
  | |- alike _ _ (load_text _) => apply alike_load_text
  | |- alike _ _ (fetch _) => apply alike_fetch_get; reflexivity
  | |- alike _ _ (for_of _ _ _) => apply alike_for_of; intros
  | |- alike _ _ (if ?b then _ else _) => destruct b
  | |- alike _ _ (match ?x with _ => _ end) => destruct x
  end.

Lemma alike_perstory_fetchJSON (url : jsstr) :
  alike net net' (PerStory.fetchJSON url).
Proof using Hgets. unfold PerStory.fetchJSON. repeat alike_step. Qed.

Lemma alike_perstory_extractSummary (u : JSON) :
  alike net net' (PerStory.extractSummary u).
Proof using Hgets. unfold PerStory.extractSummary. repeat alike_step. Qed.

Lemma alike_perstory_visit (cfg : PerStory.Config) (id : JSON) (sent : Z) :
  alike net net' (PerStory.visit cfg id sent).
Proof using Hgets.
  unfold PerStory.visit.
  apply alike_bind; [apply alike_or_type_error|intros i].
  apply alike_bind; [apply alike_perstory_fetchJSON|intros item].
  destruct (story_url item) as [u|]; [|apply alike_ret].
  apply alike_bind; [apply alike_perstory_extractSummary|intros summary].
  repeat alike_step.
Qed.

Lemma alike_perstory_handler (cfg : PerStory.Config) :
  alike net net' (PerStory.handler cfg).
Proof using Hgets.
  unfold PerStory.handler.
  apply alike_try_catch; [|intros err; repeat alike_step].
  apply alike_bind; [apply alike_perstory_fetchJSON|intros ids].
  destruct ids; try apply alike_respond.
  apply alike_bind; [|intros sent; apply alike_respond].
  apply alike_for_of. intros id sent. apply alike_perstory_visit.
Qed.

End Simulation.

(** The requests and the reply of a per-story run do not depend on what
    the relay does. *)
Lemma perstory_relay_independent (cfg : PerStory.Config) (net net' : Network) :
  same_gets net net' ->
  same_course (PerStory.run cfg net) (PerStory.run cfg net').
Proof.
  intros Hgets. unfold PerStory.run.
  apply (alike_perstory_handler net net' Hgets cfg initial initial).
  split; reflexivity.
Qed.

(** ** The digest run *)

Ltac case_matches :=
  cbv zeta;
  repeat (first
            [ match goal with
              | |- context [match ?net ?n ?r with Rejected => _ | Resolved _ => _ end] =>
                  destruct (net n r)
              end
            | match goal with
              | |- context [if ?b then _ else _] => destruct b
              end
            | match goal with
              | |- context [match ?x with Some _ => _ | None => _ end] =>
                  destruct x
              end ];
          cbn [fst snd calls console replied negb]).

Lemma digest_fetchJSON_quiet (url : jsstr) (net : Network) (st : State) :
  quiet st -> quiet (snd (Digest.fetchJSON url net st)).
Proof.
  intros [Hcalls Hconsole].
  unfold quiet, Digest.fetchJSON, bind, fetch, json, throw, ret.
  case_matches; (split; [|exact Hconsole]);
    apply Forall_app; (split; [exact Hcalls|repeat constructor]).
Qed.

Lemma digest_visit_quiet (id : JSON) (stories : list Digest.Story)
  (net : Network) (st : State) :
  quiet st -> quiet (snd (Digest.visit id stories net st)).
Proof.
  intros [Hcalls Hconsole].
  unfold quiet, Digest.visit, Digest.fetchJSON, Digest.extractSummary, bind,
    or_type_error, fetch, json, load_text, throw, ret.
  case_matches; (split; [|exact Hconsole]);
    rewrite ?Forall_app; repeat split; try exact Hcalls; repeat constructor.
Qed.

Lemma quiet_no_post (st : State) (req : Request) (o : Outcome) :
  quiet st -> In (req, o) (calls st) -> req_method req = POST -> False.
Proof.
  intros [Hcalls _] Hin Hpost. rewrite Forall_forall in Hcalls.
  specialize (Hcalls _ Hin). unfold is_post in Hcalls. cbn in Hcalls.
  rewrite Hpost in Hcalls. discriminate.
Qed.

(** When the relay has answered the digest with a response, successful
    or not, the run replies with success and has logged nothing. *)
Lemma digest_post_answered (cfg : Digest.Config) (net : Network)
  (req : Request) (res : Response) :
  In (req, Resolved res) (calls (Digest.run cfg net)) ->
  req_method req = POST ->
  (exists n, replied (Digest.run cfg net) = Some (success_count n))
  /\ console (Digest.run cfg net) = [].
Proof.
  remember (Digest.run cfg net) as final eqn:Hrun.
  unfold Digest.run, Digest.handler, try_catch in Hrun.
  assert (Hinit : quiet initial) by (split; [constructor|reflexivity]).
  pose proof (digest_fetchJSON_quiet topstories_url net initial Hinit) as Hq1.
  assert (Haborted : forall err s,
             quiet s ->
             final = snd ((console_error (LogError err) ;;;
                           respond 500
                             (JObj [(lit "error",
                                     JStr (lit "Failed to fetch or send stories"))]))
                            net s) ->
             In (req, Resolved res) (calls final) -> req_method req = POST ->
             (exists n, replied final = Some (success_count n))
             /\ console final = []).
  { intros err s Hq -> Hin Hpost. cbn in Hin.
    destruct (quiet_no_post _ _ _ Hq Hin Hpost). }
  unfold bind at 1 in Hrun.
  destruct (Digest.fetchJSON topstories_url net initial) as [[ids|err] s1];
    cbn [snd] in Hq1; [|exact (Haborted err s1 Hq1 Hrun)].
  unfold bind at 1 in Hrun.
  destruct (Digest.slice_value ids 10) as [topIds|];
    cbn [or_type_error ret throw] in Hrun;
    [|exact (Haborted _ s1 Hq1 Hrun)].
  unfold bind at 1 in Hrun.
  destruct (Digest.iterate topIds) as [elements|];
    cbn [or_type_error ret throw] in Hrun;
    [|exact (Haborted _ s1 Hq1 Hrun)].
  pose proof (for_of_state_invariant quiet Digest.visit
                (fun x acc net0 st0 => digest_visit_quiet x acc net0 st0)
                elements [] net s1 Hq1) as Hq2.
  unfold bind at 1 in Hrun.
  destruct (for_of elements [] Digest.visit net s1) as [[stories|err] s2];
    cbn [snd] in Hq2; [|exact (Haborted _ s2 Hq2 Hrun)].
  unfold bind at 1 in Hrun.
  destruct (Digest.compose 0 stories (lit "")) as [body|];
    cbn [or_type_error ret throw] in Hrun;
    [|exact (Haborted _ s2 Hq2 Hrun)].
  unfold bind at 1 in Hrun. unfold fetch in Hrun.
  destruct (net (length (calls s2)) (Digest.notification cfg body)) as [|res'].
  - intros Hin Hpost. subst final. cbn in Hin.
    apply in_app_or in Hin as [Hin | [Hin | []]].
    + destruct (quiet_no_post _ _ _ Hq2 Hin Hpost).
    + discriminate.
  - intros _ _. subst final. cbn. split; [eexists; reflexivity|apply Hq2].
Qed.

(** ** Failures *)

(** The per-story [extractSummary] turns every failure of the page fetch
    into the empty string; the digest one throws a rejected fetch and an
    unreadable body to its caller. *)
Lemma extractSummary_on_failure (u : JSON) (net : Network) (st : State) :
  page_failed (net (length (calls st)) (browser_get u)) ->
  fst (PerStory.extractSummary u net st) = Ok (lit "")
  /\ (fst (Digest.extractSummary u net st) = Ok (lit "")
      \/ exists err, fst (Digest.extractSummary u net st) = Throw err).
Proof.
  unfold page_failed, PerStory.extractSummary, Digest.extractSummary,
    try_catch, bind, fetch, load_text, console_error, throw, ret.
  destruct (net (length (calls st)) (browser_get u)) as [|res]; cbn.
  - intros _. split; [reflexivity|right; eauto].
  - intros [H | H]; rewrite H; cbn.
    + split; [reflexivity|left; reflexivity].
    + destruct (res_ok res); cbn; split; try reflexivity;
        [right; eauto|left; reflexivity].
Qed.

(** C3 fails in [api/hn.js]: when the article of a story cannot be
    reached, its [extractSummary] throws, the handler answers 500 and
    no notification is sent; the per-story handler, on the same
    network, gets the empty summary and goes on. *)
Theorem digest_unreachable_page_aborts :
  fst (Digest.extractSummary article_url (script []) initial)
  = Throw (FetchError (browser_get article_url))
  /\ replied (Digest.run digest_defaults net_page_unreachable)
     = Some digest_error
  /\ filter is_post (calls (Digest.run digest_defaults net_page_unreachable)) = []
  /\ fst (PerStory.extractSummary article_url (script []) initial) = Ok (lit "")
  /\ replied (PerStory.run (PerStory.config default_env) net_page_unreachable)
     = Some (success_sent 1).
Proof. repeat split; reflexivity. Qed.

(** X17: the per-story handler aborts when the list is not an array:
    it replies with the list error after the one request for the list. *)
Lemma perstory_aborts_without_array (cfg : PerStory.Config) (net : Network) :
  (forall l, item_of (net 0%nat (plain_get topstories_url)) <> JArr l) ->
  replied (PerStory.run cfg net) = Some perstory_list_error
  /\ calls (PerStory.run cfg net) = [topstories_call net].
Proof.
  intros Hnot. unfold PerStory.run, PerStory.handler.
  destruct (perstory_fetchJSON_spec topstories_url net initial) as [l0 H0].
  cbn [calls console replied initial length app] in H0.
  erewrite try_ok.
  2:{ rewrite (bind_ok _ _ _ _ _ _ H0).
      destruct (item_of (net 0%nat (plain_get topstories_url))) eqn:Hv;
        try reflexivity.
      destruct (Hnot l eq_refl). }
  split; reflexivity.
Qed.

Lemma digest_fetchJSON_spec (url : jsstr) (net : Network) (st : State) :
  Digest.fetchJSON url net st
  = (match net (length (calls st)) (plain_get url) with
     | Rejected => Throw (FetchError (plain_get url))
     | Resolved res =>
         if res_ok res
         then match res_json res with
              | Some v => Ok v
              | None => Throw BodyError
              end
         else Throw (HttpError url None)
     end,
     mkState (calls st ++ [(plain_get url, net (length (calls st)) (plain_get url))])
       (console st) (replied st)).
Proof.
  unfold Digest.fetchJSON, bind, fetch, json, throw, ret.
  destruct (net (length (calls st)) (plain_get url)) as [|res]; [reflexivity|].
  destruct (res_ok res); cbn [negb]; [|reflexivity].
  destruct (res_json res); reflexivity.
Qed.

(** X18: the digest handler aborts when the list request fails or gives
    neither an array nor a string: it replies with its error after the
    one request for the list. *)
Lemma digest_aborts_without_array_or_string (cfg : Digest.Config)
  (net : Network) :
  (forall l, item_of (net 0%nat (plain_get topstories_url)) <> JArr l) ->
  (forall s, item_of (net 0%nat (plain_get topstories_url)) <> JStr s) ->
  replied (Digest.run cfg net) = Some digest_error
  /\ calls (Digest.run cfg net) = [topstories_call net].
Proof.
  intros Harr Hstr. unfold Digest.run, Digest.handler.
  pose proof (digest_fetchJSON_spec topstories_url net initial) as H0.
  cbn [calls console replied initial length app] in H0.
  assert (Hthrow : exists err,
             (ids <- Digest.fetchJSON topstories_url ;;
              topIds <- or_type_error (Digest.slice_value ids 10) ;;
              elements <- or_type_error (Digest.iterate topIds) ;;
              stories <- for_of elements [] Digest.visit ;;
              body <- or_type_error (Digest.compose 0 stories (lit "")) ;;
              fetch (Digest.notification cfg body) ;;;
              respond 200
                (JObj [(lit "success", JBool true);
                       (lit "count", JNum (Z.of_nat (length stories)))]))
               net initial
             = (Throw err, mkState [topstories_call net] [] None)).
  { unfold item_of in Harr, Hstr.
    destruct (net 0%nat (plain_get topstories_url)) as [|res] eqn:Hnet.
    { eexists. apply bind_throw. rewrite H0. unfold topstories_call.
      rewrite Hnet. reflexivity. }
    destruct (res_ok res).
    2:{ eexists. apply bind_throw. rewrite H0. unfold topstories_call.
        rewrite Hnet. reflexivity. }
    destruct (res_json res) as [v|].
    2:{ eexists. apply bind_throw. rewrite H0. unfold topstories_call.
        rewrite Hnet. reflexivity. }
    exists TypeError. rewrite (bind_ok _ _ _ _ _ _ H0).
    apply bind_throw. unfold topstories_call. rewrite Hnet.
    destruct v; try reflexivity.
    - destruct (Hstr s eq_refl).
    - destruct (Harr l eq_refl). }
  destruct Hthrow as [err Hthrow].
  rewrite (try_throw _ _ _ _ _ _ Hthrow). split; reflexivity.
Qed.

(** C5 fails in [api/hn.js]: a list endpoint that answers with a JSON
    string is taken for a list of one-character identifiers; the run
    posts a digest and replies with success.  The per-story handler,
    which tests [Array.isArray], aborts on the same network. *)
Theorem digest_takes_string_for_list :
  replied (Digest.run digest_defaults net_string_list) = Some (success_count 0)
  /\ length (filter is_post (calls (Digest.run digest_defaults net_string_list)))
     = 1%nat
  /\ map fst (filter is_api_call (calls (Digest.run digest_defaults net_string_list)))
     = [plain_get topstories_url; plain_get (item_url (lit "a"));
        plain_get (item_url (lit "b"))]
  /\ replied (PerStory.run (PerStory.config default_env) net_string_list)
     = Some perstory_list_error
  /\ filter is_post (calls (PerStory.run (PerStory.config default_env) net_string_list))
     = [].
Proof. repeat split; reflexivity. Qed.

(** ** Delivery failures *)

(** X16: a delivery failure does not abort processing.  In per-story mode a
    notification that the relay answers with a response that is not
    [ok] is logged and the guarded send returns; the requests of the
    run (so the delivery attempts for the later stories) and its reply
    are the same whatever the relay does.  In digest mode a run whose
    digest the relay answered with such a response replies with
    success. *)
Theorem relay_failure_does_not_abort :
  (forall cfg story net st u res,
      to_string (PerStory.url story) = Some u ->
      net (length (calls st))
        (PerStory.notification cfg story (PerStory.summary story ++ [10%N] ++ u))
      = Resolved res ->
      res_ok res = false ->
      exists line,
        try_catch (PerStory.sendNotification cfg story)
          (fun err => console_error (LogError err)) net st
        = (Ok tt,
           mkState
             (calls st ++
                [(PerStory.notification cfg story
                    (PerStory.summary story ++ [10%N] ++ u), Resolved res)])
             (console st ++ [line]) (replied st)))
  /\ (forall cfg net net',
        same_gets net net' ->
        same_course (PerStory.run cfg net) (PerStory.run cfg net'))
  /\ (forall cfg net req res,
        In (req, Resolved res) (calls (Digest.run cfg net)) ->
        req_method req = POST ->
        res_ok res = false ->
        exists n, replied (Digest.run cfg net) = Some (success_count n)).
Proof.
  split; [|split].
  - intros cfg story net st u res Hu Hanswer Hok.
    unfold PerStory.sendNotification, try_catch, bind, fetch, or_type_error,
      console_error, throw, ret.
    rewrite Hu. cbn [fst snd]. rewrite Hanswer, Hok. cbn [negb].
    destruct (to_string_val (PerStory.title story)); eexists; reflexivity.
  - intros cfg net net'. apply perstory_relay_independent.
  - intros cfg net req res Hin Hpost _.
    apply (digest_post_answered cfg net req res Hin Hpost).
Qed.

Lemma same_gets_relay (a b : Outcome) (base : Network) :
  same_gets (with_relay a base) (with_relay b base).
Proof.
  intros n req Hget. unfold with_relay. rewrite Hget. reflexivity.
Qed.

Lemma relay_failure_does_not_abort_witness :
  (exists line,
      try_catch (PerStory.sendNotification limit_2 sample_story)
        (fun err => console_error (LogError err))
        (with_relay (Resolved answer_500) (script [])) initial
      = (Ok tt,
         mkState [(PerStory.notification limit_2 sample_story sample_body,
                   Resolved answer_500)]
           [line] None))
  /\ same_course (PerStory.run limit_2 net_relay_down)
       (PerStory.run limit_2 net_relay_up)
  /\ exists n,
       replied (Digest.run digest_defaults net_digest_relay_down)
       = Some (success_count n).
Proof.
  destruct relay_failure_does_not_abort as (Hlogged & Hsame & Hdigest).
  split; [|split].
  - apply (Hlogged limit_2 sample_story
             (with_relay (Resolved answer_500) (script [])) initial
             (lit "https://example.org/article") answer_500);
      reflexivity.
  - apply Hsame. apply same_gets_relay.
  - apply (Hdigest digest_defaults net_digest_relay_down
             (fst (nth 3 (calls (Digest.run digest_defaults net_digest_relay_down))
                     (plain_get [], Rejected)))
             answer_500).
    + vm_compute. do 3 right. left. reflexivity.
    + reflexivity.
    + reflexivity.
Defined.

(** ** The story lister *)

Lemma page_call_not_api (c : Request * Outcome) :
  is_page_call c = true -> is_api_call c = false.
Proof.
  unfold is_page_call, is_api_call.
  destruct (req_method (fst c)), (req_headers (fst c));
    intros H; try discriminate; reflexivity.
Qed.

(** The digest loop requests the items in the order of the list, and
    stops at the first step that throws: a loop that returns has
    requested every item. *)
Lemma digest_loop_calls (ids : list JSON) (names : list jsstr) :
  map to_string ids = map Some names ->
  forall stories net st,
  exists new k,
    calls (snd (for_of ids stories Digest.visit net st)) = calls st ++ new
    /\ map fst (filter is_api_call new)
       = firstn k (map (fun i => plain_get (item_url i)) names)
    /\ (forall stories',
           fst (for_of ids stories Digest.visit net st) = Ok stories' ->
           map fst (filter is_api_call new)
           = map (fun i => plain_get (item_url i)) names).
Proof.
  revert names. induction ids as [|id ids IH]; intros names Hnames stories net st.
  - destruct names; [|discriminate].
    exists [], 0%nat. cbn. rewrite app_nil_r. repeat split; reflexivity.
  - destruct names as [|i names]; [discriminate|].
    cbn [map] in Hnames. injection Hnames as Hid Hrest.
    destruct (digest_visit_spec id i stories net st Hid)
      as (more & Hcalls & Hmore & _ & _).
    assert (Hmore_api : filter is_api_call more = []).
    { apply filter_none. eapply Forall_impl; [|exact Hmore].
      intros c. apply page_call_not_api. }
    cbn [for_of]. unfold bind.
    destruct (Digest.visit id stories net st) as [[stories'|err] s1];
      cbn [snd] in *.
    + destruct (IH names Hrest stories' net s1)
        as (new & k & Hloop & Hapi & Hall).
      eexists (_ :: more ++ new), (S k). rewrite Hloop, Hcalls.
      split; [|split].
      * rewrite <- app_assoc. reflexivity.
      * cbn [filter]. change (is_api_call (plain_get (item_url i), _)) with true.
        cbv iota. rewrite filter_app, Hmore_api. cbn [app map fst firstn].
        rewrite Hapi. reflexivity.
      * intros final Hfinal.
        cbn [filter]. change (is_api_call (plain_get (item_url i), _)) with true.
        cbv iota. rewrite filter_app, Hmore_api. cbn [app map fst].
        rewrite (Hall final Hfinal). reflexivity.
    + eexists (_ :: more), 1%nat. split; [exact Hcalls|]. split.
      * cbn [filter]. change (is_api_call (plain_get (item_url i), _)) with true.
        cbv iota. rewrite Hmore_api. reflexivity.
      * intros final Hfinal. discriminate Hfinal.
Qed.

(** The digest run asks for the items of the first ten identifiers, in
    their order: for all of them, unless a step of the loop throws, in
    which case the run has stopped there, replies with the error and
    sends no digest. *)
Lemma digest_run_api_calls (cfg : Digest.Config) (net : Network)
  (ids : list Z) :
  item_of (net 0%nat (plain_get topstories_url)) = JArr (map JNum ids) ->
  (exists k,
      map fst (filter is_api_call (calls (Digest.run cfg net)))
      = plain_get topstories_url :: firstn k (map item_request (firstn 10 ids)))
  /\ (map fst (filter is_api_call (calls (Digest.run cfg net)))
      = plain_get topstories_url :: map item_request (firstn 10 ids)
      \/ (replied (Digest.run cfg net) = Some digest_error
          /\ filter is_post (calls (Digest.run cfg net)) = [])).
Proof.
  intros Hids.
  assert (Hlist : Digest.fetchJSON topstories_url net initial
                  = (Ok (JArr (map JNum ids)),
                     mkState [topstories_call net] [] None)).
  { rewrite digest_fetchJSON_spec. unfold item_of, topstories_call in *.
    cbn [calls console replied initial length app].
    destruct (net 0%nat (plain_get topstories_url)) as [|res];
      [discriminate|].
    destruct (res_ok res); [|discriminate].
    destruct (res_json res); [|discriminate].
    rewrite Hids. reflexivity. }
  assert (Hnames : map to_string (slice0 (map JNum ids) 10)
                   = map Some (map string_of_Z (firstn 10 ids))).
  { rewrite slice0_map, !map_map, slice0_firstn by lia. reflexivity. }
  destruct (digest_loop_calls _ _ Hnames [] net
              (mkState [topstories_call net] [] None))
    as (new & k & Hloop & Hapi & Hall).
  rewrite map_map in Hapi, Hall. cbn [calls app] in Hloop.
  assert (Hquiet : quiet (snd (for_of (slice0 (map JNum ids) 10) []
                                 Digest.visit net
                                 (mkState [topstories_call net] [] None)))).
  { apply (for_of_state_invariant quiet Digest.visit
             (fun x acc net0 st0 => digest_visit_quiet x acc net0 st0)).
    split; [repeat constructor|reflexivity]. }
  assert (Hshape : exists extra,
             calls (Digest.run cfg net) = topstories_call net :: new ++ extra
             /\ filter is_api_call extra = []
             /\ ((exists stories,
                     fst (for_of (slice0 (map JNum ids) 10) [] Digest.visit net
                            (mkState [topstories_call net] [] None))
                     = Ok stories)
                 \/ (replied (Digest.run cfg net) = Some digest_error
                     /\ filter is_post (calls (Digest.run cfg net)) = []))).
  { unfold Digest.run, Digest.handler.
    remember (for_of (slice0 (map JNum ids) 10) [] Digest.visit net
                (mkState [topstories_call net] [] None)) as loop eqn:Hrun.
    destruct loop as [[stories|err] s2]; cbn [fst snd] in Hloop, Hquiet |- *.
    - destruct (Digest.compose 0 stories (lit "")) as [body|] eqn:Hbody.
      + exists [(Digest.notification cfg body,
                 net (length (calls s2)) (Digest.notification cfg body))].
        split; [|split; [reflexivity|left; eexists; reflexivity]].
        unfold try_catch. rewrite (bind_ok _ _ _ _ _ _ Hlist).
        cbn [Digest.slice_value Digest.iterate or_type_error].
        rewrite (bind_ok _ _ _ _ (JArr (slice0 (map JNum ids) 10))
                   (mkState [topstories_call net] [] None)) by reflexivity.
        rewrite (bind_ok _ _ _ _ (slice0 (map JNum ids) 10)
                   (mkState [topstories_call net] [] None)) by reflexivity.
        rewrite (bind_ok _ _ _ _ stories s2) by (symmetry; exact Hrun).
        rewrite Hbody.
        rewrite (bind_ok _ _ _ _ body s2) by reflexivity.
        unfold bind, fetch, respond, console_error.
        destruct (net (length (calls s2)) (Digest.notification cfg body));
          cbn [fst snd calls]; rewrite Hloop; reflexivity.
      + exists []. rewrite app_nil_r.
        split; [|split; [reflexivity|left; eexists; reflexivity]].
        unfold try_catch. rewrite (bind_ok _ _ _ _ _ _ Hlist).
        cbn [Digest.slice_value Digest.iterate or_type_error].
        rewrite (bind_ok _ _ _ _ (JArr (slice0 (map JNum ids) 10))
                   (mkState [topstories_call net] [] None)) by reflexivity.
        rewrite (bind_ok _ _ _ _ (slice0 (map JNum ids) 10)
                   (mkState [topstories_call net] [] None)) by reflexivity.
        rewrite (bind_ok _ _ _ _ stories s2) by (symmetry; exact Hrun).
        rewrite Hbody. cbn. exact Hloop.
    - assert (Hstate : snd (try_catch
                 (ids0 <- Digest.fetchJSON topstories_url ;;
                  topIds <- or_type_error (Digest.slice_value ids0 10) ;;
                  elements <- or_type_error (Digest.iterate topIds) ;;
                  stories <- for_of elements [] Digest.visit ;;
                  body <- or_type_error (Digest.compose 0 stories (lit "")) ;;
                  fetch (Digest.notification cfg body) ;;;
                  respond 200
                    (JObj [(lit "success", JBool true);
                           (lit "count", JNum (Z.of_nat (length stories)))]))
                 (fun err0 =>
                    console_error (LogError err0) ;;;
                    respond 500
                      (JObj [(lit "error",
                              JStr (lit "Failed to fetch or send stories"))]))
                 net initial)
               = mkState (calls s2) (console s2 ++ [LogError err])
                   (Some digest_error)).
      { unfold try_catch. rewrite (bind_ok _ _ _ _ _ _ Hlist).
        cbn [Digest.slice_value Digest.iterate or_type_error].
        rewrite (bind_ok _ _ _ _ (JArr (slice0 (map JNum ids) 10))
                   (mkState [topstories_call net] [] None)) by reflexivity.
        rewrite (bind_ok _ _ _ _ (slice0 (map JNum ids) 10)
                   (mkState [topstories_call net] [] None)) by reflexivity.
        rewrite (bind_throw _ _ _ _ err s2) by (symmetry; exact Hrun).
        reflexivity. }
      rewrite Hstate. cbn [calls replied].
      exists []. rewrite app_nil_r.
      split; [exact Hloop|]. split; [reflexivity|].
      right. split; [reflexivity|].
      apply filter_none. exact (proj1 Hquiet). }
  destruct Hshape as (extra & Hcalls & Hextra & Hend).
  assert (Hfilter : map fst (filter is_api_call (calls (Digest.run cfg net)))
                    = plain_get topstories_url
                      :: map fst (filter is_api_call new)).
  { rewrite Hcalls. cbn [filter].
    change (is_api_call (topstories_call net)) with true. cbv iota.
    rewrite filter_app, Hextra, app_nil_r. reflexivity. }
  split.
  - exists k. rewrite Hfilter, Hapi. reflexivity.
  - destruct Hend as [[stories Hok] | Haborted]; [left|right; exact Haborted].
    rewrite Hfilter, (Hall stories Hok). reflexivity.
Qed.

(** C4: with a limit [L >= 0] the lister keeps the first [min L length]
    identifiers of the upstream list, in their order, and the run
    fetches the items of exactly these identifiers: no item after them
    is requested.  The lister of the digest handler, whose limit is the
    constant 10, keeps the first [min 10 length] identifiers in their
    order, and its run requests items of these identifiers only, in
    that order: of every one of them, unless the run aborted at a fetch
    that failed, in which case it replies with the error and sends no
    digest. *)
Theorem lister_keeps_first_L (cfg : PerStory.Config) (net : Network)
  (ids : list Z) :
  0 <= PerStory.LIMIT cfg ->
  item_of (net 0%nat (plain_get topstories_url)) = JArr (map JNum ids) ->
  let topIds := slice0 ids (PerStory.LIMIT cfg) in
  topIds = firstn (Z.to_nat (PerStory.LIMIT cfg)) ids
  /\ Z.of_nat (length topIds) = Z.min (PerStory.LIMIT cfg) (Z.of_nat (length ids))
  /\ map fst (filter is_api_call (calls (PerStory.run cfg net)))
     = plain_get topstories_url :: map item_request topIds
  /\ (Digest.slice_value (JArr (map JNum ids)) 10
      = Some (JArr (map JNum (firstn 10 ids)))
      /\ Z.of_nat (length (firstn 10 ids)) = Z.min 10 (Z.of_nat (length ids)))
  /\ forall digest_cfg,
       (exists k,
           map fst (filter is_api_call (calls (Digest.run digest_cfg net)))
           = plain_get topstories_url
             :: firstn k (map item_request (firstn 10 ids)))
       /\ (map fst (filter is_api_call (calls (Digest.run digest_cfg net)))
           = plain_get topstories_url :: map item_request (firstn 10 ids)
           \/ (replied (Digest.run digest_cfg net) = Some digest_error
               /\ filter is_post (calls (Digest.run digest_cfg net)) = [])).
Proof.
  intros HL Hids topIds. split; [|split; [|split; [|split]]].
  - apply slice0_firstn. exact HL.
  - apply slice0_length. exact HL.
  - destruct (perstory_handler_spec cfg net ids Hids)
      as (visits & Hcalls & _ & Hapi & _).
    rewrite Hcalls. cbn [filter]. change (is_api_call (topstories_call net))
      with true. cbv iota. cbn [map fst topstories_call]. rewrite Hapi.
    reflexivity.
  - split.
    + cbn [Digest.slice_value].
      rewrite slice0_map, slice0_firstn by lia. reflexivity.
    + rewrite length_firstn. lia.
  - intros digest_cfg. apply digest_run_api_calls. exact Hids.
Qed.

Lemma lister_keeps_first_L_witness :
  map fst (filter is_api_call (calls (PerStory.run limit_2 net_123)))
  = [plain_get topstories_url; item_request 1; item_request 2]
  /\ map fst (filter is_api_call
                (calls (Digest.run digest_defaults net_digest_relay_down)))
     = [plain_get topstories_url; item_request 1].
Proof.
  split.
  - apply (lister_keeps_first_L limit_2 net_123 [1; 2; 3]).
    + cbn. lia.
    + reflexivity.
  - destruct (lister_keeps_first_L limit_2 net_digest_relay_down [1])
      as (_ & _ & _ & _ & Hdigest).
    + cbn. lia.
    + reflexivity.
    + destruct (Hdigest digest_defaults) as [_ [Hall | [Haborted _]]].
      * exact Hall.
      * discriminate Haborted.
Defined.

(** C8 fails in [api/hn.js] for the log: when the relay answers the
    digest with status 500 the run replies with success, as it should,
    but nothing has been written to the console. *)
Theorem digest_relay_failure_not_logged :
  map snd (filter is_post (calls (Digest.run digest_defaults net_digest_relay_down)))
  = [Resolved answer_500]
  /\ replied (Digest.run digest_defaults net_digest_relay_down)
     = Some (success_count 1)
  /\ console (Digest.run digest_defaults net_digest_relay_down) = [].
Proof. repeat split; reflexivity. Qed.

(* ================================================================== *)
(** * Further properties of the two files *)

(** ** Reading the story limit *)

Lemma lit_String (c : ascii) (s : string) :
  lit (String c s) = N_of_ascii c :: lit s.
Proof. reflexivity. Qed.

Ltac read_digit :=
  rewrite lit_String; cbn [app digits];
  match goal with
  | |- context [digit ?c] =>
      let v := eval vm_compute in (digit c) in change (digit c) with v
  end; cbv iota beta.

Lemma digits_stop (acc : option Z) (rest : jsstr) :
  stops rest -> digits acc rest = acc.
Proof.
  destruct rest as [|c r]; simpl; [reflexivity|]. intros ->. reflexivity.
Qed.

Lemma digits_uint (d : Decimal.uint) :
  forall acc rest,
    stops rest ->
    digits (Some acc) (lit (NilEmpty.string_of_uint d) ++ rest)
    = Some (uint_value d acc).
Proof.
  induction d; intros acc rest Hrest; cbn [NilEmpty.string_of_uint uint_value];
    [apply digits_stop; exact Hrest|..]; read_digit; apply IHd; exact Hrest.
Qed.

Lemma digits_uint_start (d : Decimal.uint) (rest : jsstr) :
  d <> Decimal.Nil ->
  stops rest ->
  digits None (lit (NilEmpty.string_of_uint d) ++ rest) = Some (uint_value d 0).
Proof.
  intros Hd Hrest. destruct d; [congruence|..];
    cbn [NilEmpty.string_of_uint uint_value]; read_digit;
    apply digits_uint; exact Hrest.
Qed.

Lemma uint_value_acc (d : Decimal.uint) :
  forall p, uint_value d (Z.pos p) = Z.pos (Pos.of_uint_acc d p).
Proof.
  induction d; intros p; cbn [uint_value Pos.of_uint_acc]; try reflexivity.
  all: rewrite <- IHd; f_equal; lia.
Qed.

Lemma uint_value_0 (d : Decimal.uint) : uint_value d 0 = Z.of_N (Pos.of_uint d).
Proof.
  induction d; cbn [uint_value Pos.of_uint]; try reflexivity; [exact IHd|..].
  all: cbn [Z.of_N]; rewrite <- uint_value_acc; reflexivity.
Qed.

Lemma trim_start_pad (pad s : jsstr) :
  Forall (fun c => is_space c = true) pad ->
  trim_start (pad ++ s) = trim_start s.
Proof.
  induction 1 as [|c pad Hc _ IH]; [reflexivity|]. simpl. rewrite Hc. exact IH.
Qed.

Lemma parseInt_uint (d : Decimal.uint) (pad rest : jsstr) :
  d <> Decimal.Nil ->
  Forall (fun c => is_space c = true) pad ->
  stops rest ->
  parseInt (Some (pad ++ lit (NilEmpty.string_of_uint d) ++ rest))
  = Some (uint_value d 0)
  /\ parseInt (Some (pad ++ 45%N :: lit (NilEmpty.string_of_uint d) ++ rest))
     = Some (- uint_value d 0).
Proof.
  intros Hd Hpad Hrest. unfold parseInt.
  split; rewrite !trim_start_pad by assumption.
  - pose proof (digits_uint_start d rest Hd Hrest) as H.
    destruct d; [congruence|..]; cbn [NilEmpty.string_of_uint] in *;
      rewrite lit_String in *; cbn [app] in *;
      match goal with
      | |- context [N_of_ascii ?a] =>
          let v := eval vm_compute in (N_of_ascii a) in
          change (N_of_ascii a) with v in *
      end;
      match goal with
      | |- context [trim_start (?c :: ?t)] =>
          change (trim_start (c :: t)) with (c :: t)
      end;
      cbv iota beta; rewrite H; reflexivity.
  - cbn [trim_start]. change (is_space 45%N) with false. cbv iota beta.
    rewrite (digits_uint_start d rest Hd Hrest). reflexivity.
Qed.

Lemma string_of_uint_nonnil (d : Decimal.uint) :
  d <> Decimal.Nil ->
  NilZero.string_of_uint d = NilEmpty.string_of_uint d.
Proof.
  intros Hd. unfold NilZero.string_of_uint. destruct d; [congruence|reflexivity..].
Qed.

(** [parseInt] reads back the decimal digits of an integer, after any
    white space and before any text that is no digit. *)
Lemma parseInt_string_of_Z (z : Z) (pad rest : jsstr) :
  Forall (fun c => is_space c = true) pad ->
  stops rest ->
  parseInt (Some (pad ++ string_of_Z z ++ rest)) = Some z.
Proof.
  intros Hpad Hrest. unfold string_of_Z.
  destruct z as [|p|p]; cbn [Z.to_int NilZero.string_of_int].
  - apply (parseInt_uint (Decimal.D0 Decimal.Nil) pad rest);
      [discriminate|assumption..].
  - pose proof (DecimalPos.Unsigned.to_uint_nonnil p) as Hnil.
    rewrite (string_of_uint_nonnil _ Hnil).
    rewrite (proj1 (parseInt_uint _ pad rest Hnil Hpad Hrest)), uint_value_0,
      DecimalPos.Unsigned.of_to.
    reflexivity.
  - pose proof (DecimalPos.Unsigned.to_uint_nonnil p) as Hnil.
    rewrite (string_of_uint_nonnil _ Hnil).
    rewrite lit_String. change (N_of_ascii "-") with 45%N. cbn [app].
    rewrite (proj2 (parseInt_uint _ pad rest Hnil Hpad Hrest)), uint_value_0,
      DecimalPos.Unsigned.of_to.
    reflexivity.
Qed.

(** X11: a [STORY_LIMIT] that holds the decimal digits of a safe
    integer [n], possibly after white space and before other text,
    gives the limit [n], except that 0 gives the default 10. *)
Theorem limit_from_environment (env : Env) (n : Z) (pad rest : jsstr) :
  safe_integer n ->
  STORY_LIMIT env = Some (pad ++ string_of_Z n ++ rest) ->
  Forall (fun c => is_space c = true) pad ->
  stops rest ->
  PerStory.LIMIT (PerStory.config env) = (if n =? 0 then 10 else n).
Proof.
  intros _ Henv Hpad Hrest. cbn [PerStory.config PerStory.LIMIT].
  rewrite Henv, (parseInt_string_of_Z n pad rest Hpad Hrest). reflexivity.
Qed.

Lemma limit_from_environment_witness :
  PerStory.LIMIT (PerStory.config env_limit_words) = 25.
Proof.
  apply (limit_from_environment env_limit_words 25 (lit " ") (lit " stories")).
  - unfold safe_integer. lia.
  - reflexivity.
  - repeat constructor.
  - reflexivity.
Defined.

Lemma slice0_negative {A : Type} (l : list A) (e : Z) :
  e < 0 -> slice0 l e = firstn (length l - Z.to_nat (- e)) l.
Proof.
  intros He. unfold slice0.
  destruct (e <? 0) eqn:Hneg; [|apply Z.ltb_ge in Hneg; lia].
  f_equal. lia.
Qed.

(** X12: with a negative [STORY_LIMIT] the per-story run does not stop
    early: [slice(0, n)] drops the last [-n] identifiers and the run
    fetches the items of all the others. *)
Theorem negative_limit_drops_last (env : Env) (net : Network) (ids : list Z)
  (n : Z) :
  n < 0 ->
  STORY_LIMIT env = Some (string_of_Z n) ->
  item_of (net 0%nat (plain_get topstories_url)) = JArr (map JNum ids) ->
  map fst (filter is_api_call (calls (PerStory.run (PerStory.config env) net)))
  = plain_get topstories_url
    :: map item_request (firstn (length ids - Z.to_nat (- n)) ids).
Proof.
  intros Hn Henv Hids.
  assert (Hlimit : PerStory.LIMIT (PerStory.config env) = n).
  { pose proof (parseInt_string_of_Z n [] [] (Forall_nil _) I) as Hparse.
    rewrite app_nil_r in Hparse.
    cbn [PerStory.config PerStory.LIMIT]. rewrite Henv.
    etransitivity; [exact (f_equal (fun p => num_or p 10) Hparse)|].
    unfold num_or. destruct n; [lia|lia|reflexivity]. }
  destruct (perstory_handler_spec (PerStory.config env) net ids Hids)
    as (visits & Hcalls & _ & Hapi & _).
  rewrite Hcalls. cbn [filter].
  change (is_api_call (topstories_call net)) with true.
  cbv iota. cbn [map fst topstories_call].
  rewrite Hapi, Hlimit, slice0_negative by exact Hn. reflexivity.
Qed.

Lemma negative_limit_drops_last_witness :
  map fst (filter is_api_call
             (calls (PerStory.run (PerStory.config env_limit_minus_1) net_123)))
  = [plain_get topstories_url; item_request 1; item_request 2].
Proof.
  apply (negative_limit_drops_last env_limit_minus_1 net_123 [1; 2; 3] (-1)).
  - lia.
  - reflexivity.
  - reflexivity.
Defined.

(** ** Configuration and item addresses *)

Lemma env_or_nonempty (v : option jsstr) (d : jsstr) :
  d <> [] -> env_or v d <> [].
Proof.
  intros Hd. unfold env_or, str_or. destruct v as [[|c s]|]; cbn; try exact Hd.
  discriminate.
Qed.

(** X14: whatever the environment, topic, tags and title are never
    empty (an unset or empty variable gives the default), so no
    notification goes to the bare relay address; a variable that is set
    to a value that is not empty is used as it is. *)
Theorem configuration_never_empty (env : Env) :
  (PerStory.TOPIC (PerStory.config env) <> []
   /\ PerStory.TAGS (PerStory.config env) <> []
   /\ Digest.TOPIC (Digest.config env) <> []
   /\ Digest.TITLE (Digest.config env) <> []
   /\ Digest.TAGS (Digest.config env) <> [])
  /\ PerStory.TOPIC (PerStory.config env) = Digest.TOPIC (Digest.config env)
  /\ (forall c s, NTFY_TOPIC env = Some (c :: s) ->
                  PerStory.TOPIC (PerStory.config env) = c :: s)
  /\ (NTFY_TOPIC env = None \/ NTFY_TOPIC env = Some [] ->
      PerStory.TOPIC (PerStory.config env) = lit "hn_daily_summaries").
Proof.
  split; [|split; [|split]].
  - repeat split; apply env_or_nonempty; discriminate.
  - reflexivity.
  - intros c s H. cbn [PerStory.config PerStory.TOPIC]. rewrite H. reflexivity.
  - intros [H | H]; cbn [PerStory.config PerStory.TOPIC]; rewrite H; reflexivity.
Qed.

Lemma configuration_never_empty_witness :
  PerStory.TOPIC (PerStory.config env_topic) = lit "alerts"
  /\ PerStory.TOPIC (PerStory.config default_env) = lit "hn_daily_summaries".
Proof.
  split.
  - apply (proj1 (proj2 (proj2 (configuration_never_empty env_topic)))
             97%N (lit "lerts")).
    reflexivity.
  - apply (proj2 (proj2 (proj2 (configuration_never_empty default_env)))).
    left. reflexivity.
Defined.

Lemma string_of_Z_inj (z z' : Z) : string_of_Z z = string_of_Z z' -> z = z'.
Proof.
  intros H.
  pose proof (parseInt_string_of_Z z [] [] (Forall_nil _) I) as Hz.
  pose proof (parseInt_string_of_Z z' [] [] (Forall_nil _) I) as Hz'.
  cbn [app] in Hz, Hz'. rewrite !app_nil_r in *. rewrite H in Hz. congruence.
Qed.

(** X13: different story identifiers, as long as they are safe
    integers, are fetched from different addresses. *)
Theorem item_requests_distinct (z z' : Z) :
  safe_integer z ->
  safe_integer z' ->
  z <> z' ->
  item_request z <> item_request z'.
Proof.
  intros _ _ Hneq H. apply Hneq.
  unfold item_request, plain_get, item_url in H.
  injection H as H. apply app_inv_tail in H.
  apply string_of_Z_inj. exact H.
Qed.

Lemma item_requests_distinct_witness : item_request 1 <> item_request 10.
Proof.
  apply item_requests_distinct; unfold safe_integer; lia.
Defined.

(** ** What a summary is made of *)

Lemma starts_with_app (p s : jsstr) :
  starts_with p s = true -> exists r, s = p ++ r.
Proof.
  revert s. induction p as [|a p IH]; intros s H.
  - exists s. reflexivity.
  - destruct s as [|b s]; [discriminate|]. cbn [starts_with] in H.
    apply andb_true_iff in H as [Hab Hp]. apply N.eqb_eq in Hab. subst b.
    destruct (IH s Hp) as [r ->]. exists r. reflexivity.
Qed.

Lemma split_from_skip (sep x r piece : jsstr) :
  split_from sep (length x) piece (x ++ r) = split_from sep 0 piece r.
Proof.
  induction x as [|a x IH]; simpl; [|exact IH].
  destruct r; reflexivity.
Qed.

Lemma split_from_nonempty (sep s : jsstr) (k : nat) (piece : jsstr) :
  split_from sep k piece s <> [].
Proof.
  revert k piece. induction s as [|c s IH]; intros k piece; simpl;
    [discriminate|].
  destruct k; [|apply IH].
  destruct (starts_with sep (c :: s)); [discriminate|apply IH].
Qed.

Lemma join_cons (sep x : jsstr) (l : list jsstr) :
  l <> [] -> join sep (x :: l) = x ++ sep ++ join sep l.
Proof. destruct l; [congruence|reflexivity]. Qed.

Lemma join_split_from (sep : jsstr) :
  sep <> [] ->
  forall n s piece,
    (length s <= n)%nat ->
    join sep (split_from sep 0 piece s) = rev piece ++ s.
Proof.
  intros Hsep. induction n as [|n IH]; intros s piece Hlen.
  - destruct s; [|cbn in Hlen; lia]. cbn. rewrite app_nil_r. reflexivity.
  - destruct s as [|c s]; [cbn; rewrite app_nil_r; reflexivity|].
    cbn [split_from]. destruct (starts_with sep (c :: s)) eqn:Hs.
    + destruct (starts_with_app _ _ Hs) as [r Hr].
      destruct sep as [|a sep']; [congruence|].
      cbn [app] in Hr. injection Hr as -> ->.
      replace (length (a :: sep') - 1)%nat with (length sep')
        by (cbn [length]; lia).
      rewrite split_from_skip.
      rewrite join_cons by apply split_from_nonempty.
      rewrite IH; [reflexivity|].
      cbn [length] in Hlen. rewrite length_app in Hlen. lia.
    + rewrite IH by (cbn [length] in Hlen; lia). cbn [rev].
      rewrite <- app_assoc. reflexivity.
Qed.

(** [split] then [join] with the same separator gives the text back. *)
Lemma join_split (sep s : jsstr) : sep <> [] -> join sep (split sep s) = s.
Proof.
  intros Hsep. unfold split. destruct sep as [|a sep']; [congruence|].
  apply (join_split_from (a :: sep') Hsep (length s) s []). lia.
Qed.

Lemma join_firstn_boundary (sep : jsstr) (l : list jsstr) (k : nat) :
  exists rest,
    join sep l = join sep (firstn k l) ++ rest
    /\ (rest = [] \/ k = 0%nat \/ exists r, rest = sep ++ r).
Proof.
  revert k. induction l as [|x l IH]; intros k.
  - exists []. split; [destruct k; reflexivity|auto].
  - destruct k as [|k]; [eexists; split; [reflexivity|auto]|].
    cbn [firstn]. destruct l as [|y l].
    + exists []. split; [destruct k; cbn; rewrite app_nil_r; reflexivity|auto].
    + destruct (IH k) as (rest & Hrest & Hshape).
      destruct k as [|k].
      * exists (sep ++ join sep (y :: l)). split; [reflexivity|eauto].
      * exists rest. split.
        -- rewrite (join_cons sep x (y :: l)) by discriminate.
           rewrite Hrest. cbn [firstn].
           rewrite (join_cons sep x (y :: firstn k l)) by discriminate.
           rewrite <- !app_assoc. reflexivity.
        -- destruct Hshape as [H | [H | H]]; [auto|discriminate|auto].
Qed.

Lemma first_nonempty_nonempty (l : list (option jsstr)) (x : jsstr) :
  first_nonempty l = Some x -> x <> [].
Proof.
  induction l as [|[[|c s]|] l IH]; cbn; intros H; try discriminate; auto.
  injection H as <-. discriminate.
Qed.

Lemma filter_nil_Forall {A : Type} (f : A -> bool) (l : list A) :
  filter f l = [] -> Forall (fun x => f x = false) l.
Proof.
  induction l as [|x l IH]; cbn; [constructor|].
  destruct (f x) eqn:Hx; [discriminate|]. intros H. constructor; auto.
Qed.

(** X3: the summary computed from a page is empty exactly when none of
    the three description tags read gives a text and no paragraph has
    20 words; in every other case a story gets a summary that is not
    empty. *)
Theorem summary_empty_iff (doc : Document) :
  summary_of doc = []
  <-> first_nonempty (candidates doc) = None
      /\ Forall (fun t => (word_count t < 20)%nat) (paragraph_texts doc).
Proof.
  split.
  - intros Hempty.
    destruct (first_nonempty (candidates doc)) as [x|] eqn:Hmeta.
    { rewrite (summary_of_meta doc x Hmeta) in Hempty.
      destruct (first_nonempty_nonempty _ _ Hmeta Hempty). }
    split; [reflexivity|].
    unfold summary_of, metaTags in Hempty.
    rewrite (filter_Boolean_none _ Hmeta) in Hempty.
    destruct (paragraphs doc) as [|p ps] eqn:Hp.
    + rewrite paragraphs_texts in Hp. apply map_eq_nil in Hp.
      apply filter_nil_Forall in Hp.
      eapply Forall_impl; [|exact Hp]. intros t Ht. cbv beta in Ht.
      apply Nat.leb_gt. exact Ht.
    + cbv zeta in Hempty. apply app_eq_nil in Hempty as [_ Hdot]. discriminate.
  - intros [Hmeta Hall]. apply summary_of_nothing; assumption.
Qed.

(** X4: the summary taken from a paragraph is a beginning of the
    trimmed paragraph followed by one full stop: nothing is rewritten
    or reordered, and what is cut off is nothing or starts at a ". "
    of the paragraph. *)
Theorem fallback_summary_truncates (doc : Document) (pre : list jsstr)
  (t : jsstr) (post : list jsstr) :
  first_nonempty (candidates doc) = None ->
  paragraph_texts doc = pre ++ t :: post ->
  Forall (fun q => (word_count q < 20)%nat) pre ->
  (20 <= word_count t)%nat ->
  exists kept dropped,
    trim t = kept ++ dropped
    /\ summary_of doc = kept ++ lit "."
    /\ (dropped = [] \/ exists r, dropped = dot_space ++ r).
Proof.
  intros Hmeta Htexts Hpre Ht.
  rewrite (summary_of_paragraph doc pre t post Hmeta Htexts Hpre Ht).
  destruct (join_firstn_boundary dot_space (split dot_space (trim t)) 2)
    as (dropped & Hdropped & Hshape).
  rewrite join_split in Hdropped by discriminate.
  eexists _, dropped. split; [exact Hdropped|]. split; [reflexivity|].
  destruct Hshape as [H | [H | H]]; [auto|discriminate|auto].
Qed.

(** ** The two versions of the fetching functions *)

(** X1: [fetchJSON] of both files makes the same single request and the
    version of api/hn.js writes nothing to the console; when the version
    of api/hn.js returns a value the per-story one returns the same
    value and logs nothing, and when it throws the per-story one returns
    [null] and logs exactly one line. *)
Theorem fetchJSON_versions (url : jsstr) (net : Network) (st : State) :
  calls (snd (PerStory.fetchJSON url net st))
  = calls st ++ [(plain_get url, net (length (calls st)) (plain_get url))]
  /\ calls (snd (Digest.fetchJSON url net st))
     = calls st ++ [(plain_get url, net (length (calls st)) (plain_get url))]
  /\ console (snd (Digest.fetchJSON url net st)) = console st
  /\ match fst (Digest.fetchJSON url net st) with
     | Ok v => fst (PerStory.fetchJSON url net st) = Ok v
               /\ console (snd (PerStory.fetchJSON url net st)) = console st
     | Throw err => fst (PerStory.fetchJSON url net st) = Ok JNull
                    /\ exists line,
                         console (snd (PerStory.fetchJSON url net st))
                         = console st ++ [line]
     end.
Proof.
  unfold PerStory.fetchJSON, Digest.fetchJSON, try_catch, bind, fetch, json,
    console_error, throw, ret.
  destruct (net (length (calls st)) (plain_get url)) as [|res]; cbn.
  - repeat split. eexists; reflexivity.
  - destruct (res_ok res); cbn.
    + destruct (res_json res); cbn; repeat split. eexists; reflexivity.
    + repeat split. eexists; reflexivity.
Qed.

(** X2: the same for [extractSummary]: one request with the browser
    headers in both files; where the version of api/hn.js throws, the
    per-story one returns the empty string and logs the error it
    caught. *)
Theorem extractSummary_versions (u : JSON) (net : Network) (st : State) :
  calls (snd (PerStory.extractSummary u net st))
  = calls st ++ [(browser_get u, net (length (calls st)) (browser_get u))]
  /\ calls (snd (Digest.extractSummary u net st))
     = calls st ++ [(browser_get u, net (length (calls st)) (browser_get u))]
  /\ console (snd (Digest.extractSummary u net st)) = console st
  /\ match fst (Digest.extractSummary u net st) with
     | Ok s => fst (PerStory.extractSummary u net st) = Ok s
               /\ console (snd (PerStory.extractSummary u net st)) = console st
     | Throw err => fst (PerStory.extractSummary u net st) = Ok (lit "")
                    /\ console (snd (PerStory.extractSummary u net st))
                       = console st ++ [LogExtractSummary err]
     end.
Proof.
  unfold PerStory.extractSummary, Digest.extractSummary, try_catch, bind, fetch,
    load_text, console_error, throw, ret.
  destruct (net (length (calls st)) (browser_get u)) as [|res]; cbn.
  - repeat split.
  - destruct (res_ok res); cbn.
    + destruct (res_dom res); cbn; repeat split.
    + repeat split.
Qed.


(** ** Bounds on a per-story run *)

Lemma calls_partition (l : list (Request * Outcome)) :
  length l = (length (filter is_api_call l) + length (filter is_page_call l)
              + length (filter is_post l))%nat.
Proof.
  induction l as [|[req o] l IH]; [reflexivity|].
  cbn [filter length].
  assert (Hkind : (is_api_call (req, o), is_page_call (req, o), is_post (req, o))
                  = (true, false, false)
                  \/ (is_api_call (req, o), is_page_call (req, o), is_post (req, o))
                     = (false, true, false)
                  \/ (is_api_call (req, o), is_page_call (req, o), is_post (req, o))
                     = (false, false, true)).
  { unfold is_api_call, is_page_call, is_post. cbn [fst].
    destruct (req_method req), (req_headers req); auto. }
  destruct Hkind as [H | [H | H]]; injection H as -> -> ->; cbn [length]; lia.
Qed.

Lemma gave_story_le_api (visits : list (Request * Outcome)) :
  (length (filter gave_story visits)
   <= length (filter is_api_call visits))%nat.
Proof.
  induction visits as [|c l IH]; [cbn; lia|].
  cbn [filter]. unfold gave_story at 1.
  destruct (is_api_call c); cbn [andb length].
  - destruct (story_url (item_of (snd c))); cbn [length]; lia.
  - exact IH.
Qed.

(** X6: a per-story run over a list of identifiers makes at most three
    requests for each identifier it keeps, after the one for the list,
    and replies with a count between 0 and the number of identifiers
    kept. *)
Theorem perstory_run_bounds (cfg : PerStory.Config) (net : Network)
  (ids : list Z) :
  item_of (net 0%nat (plain_get topstories_url)) = JArr (map JNum ids) ->
  (length (calls (PerStory.run cfg net))
   <= 1 + 3 * length (slice0 ids (PerStory.LIMIT cfg)))%nat
  /\ exists sent,
       replied (PerStory.run cfg net) = Some (success_sent sent)
       /\ 0 <= sent <= Z.of_nat (length (slice0 ids (PerStory.LIMIT cfg))).
Proof.
  intros Hids.
  destruct (perstory_handler_spec cfg net ids Hids)
    as (visits & Hcalls & Hreply & Hapi & Hpages & Hposts & _).
  assert (Hn : length (filter is_api_call visits)
               = length (slice0 ids (PerStory.LIMIT cfg))).
  { rewrite <- (length_map fst), Hapi, length_map. reflexivity. }
  pose proof (gave_story_le_api visits) as Hstories.
  split.
  - rewrite Hcalls. cbn [length]. rewrite (calls_partition visits). lia.
  - eexists. split; [exact Hreply|]. lia.
Qed.

Lemma perstory_run_bounds_witness :
  (length (calls (PerStory.run limit_2 net_123)) <= 7)%nat
  /\ exists sent,
       replied (PerStory.run limit_2 net_123) = Some (success_sent sent)
       /\ 0 <= sent <= 2.
Proof.
  exact (perstory_run_bounds limit_2 net_123 [1; 2; 3] eq_refl).
Defined.

Lemma perstory_empty_list (cfg : PerStory.Config) (net : Network) :
  item_of (net 0%nat (plain_get topstories_url)) = JArr [] ->
  calls (PerStory.run cfg net) = [topstories_call net]
  /\ replied (PerStory.run cfg net) = Some (success_sent 0).
Proof.
  intros Hids.
  destruct (perstory_handler_spec cfg net [] Hids)
    as (visits & Hcalls & Hreply & Hapi & Hpages & Hposts & _).
  assert (Hnil : visits = []).
  { apply length_zero_iff_nil. rewrite (calls_partition visits).
    assert (length (filter is_api_call visits) = 0%nat).
    { rewrite <- (length_map fst), Hapi. unfold slice0.
      rewrite firstn_nil. reflexivity. }
    pose proof (gave_story_le_api visits). lia. }
  subst visits. split; [exact Hcalls|exact Hreply].
Qed.

(** ** The notifications of a per-story run *)

Lemma notifications_follow_nil cfg : notifications_follow cfg [].
Proof. intros pre c post H. destruct pre; discriminate H. Qed.

Lemma notifications_follow_app cfg a b :
  notifications_follow cfg a -> notifications_follow cfg b ->
  notifications_follow cfg (a ++ b).
Proof.
  intros Ha Hb pre c post Heq Hpost.
  apply app_eq_app in Heq as [l [[Hpre Hrest] | [Hpre Hrest]]].
  - destruct l as [|c' l].
    + cbn in Hrest. rewrite app_nil_r in Hpre. subst pre.
      destruct (Hb [] c post (eq_sym Hrest) Hpost) as (pre' & item & page & Hnil & _).
      destruct pre' as [|? [|? ?]]; discriminate Hnil.
    + cbn [app] in Hrest. injection Hrest as <- Hpost'.
      exact (Ha pre c l Hpre Hpost).
  - destruct (Hb l c post Hrest Hpost) as (pre' & item & page & Hl & Hstory).
    exists (a ++ pre'), item, page. split; [|exact Hstory].
    rewrite Hpre, Hl, app_assoc. reflexivity.
Qed.

Lemma notifications_follow_get cfg l :
  Forall (fun c => is_post c = false) l -> notifications_follow cfg l.
Proof.
  intros Hall pre c post Heq Hpost. subst l.
  apply Forall_app in Hall as [_ Hall]. inversion Hall as [|? ? Hc _]. congruence.
Qed.

(** The guarded call of [sendNotification] makes no call, or the one
    POST built from the story. *)
Lemma perstory_send_calls (cfg : PerStory.Config) (story : PerStory.Story)
  (net : Network) (st : State) :
  exists posts,
    calls (snd (try_catch (PerStory.sendNotification cfg story)
                  (fun err => console_error (LogError err)) net st))
    = calls st ++ posts
    /\ (posts = []
        \/ exists text o,
             to_string (PerStory.url story) = Some text
             /\ posts = [(PerStory.notification cfg story
                            (PerStory.summary story ++ [10%N] ++ text), o)]).
Proof.
  unfold PerStory.sendNotification, try_catch, bind, fetch, or_type_error,
    console_error, throw, ret.
  destruct (to_string (PerStory.url story)) as [u|]; cbn.
  - destruct (net (length (calls st)) _) as [|res] eqn:Ho; cbn.
    + eexists. split; [reflexivity|]. right. eauto.
    + destruct (res_ok res); cbn.
      * eexists. split; [reflexivity|]. right. eauto.
      * destruct (to_string_val (PerStory.title story)); cbn;
          (eexists; split; [reflexivity|]; right; eauto).
  - exists []. rewrite app_nil_r. auto.
Qed.

Lemma str_or_nonempty s d : d <> [] -> str_or s d <> [].
Proof. unfold str_or. destruct s; cbn; [auto|discriminate]. Qed.

Lemma perstory_visit_notifies (cfg : PerStory.Config) (id : JSON) (sent : Z)
  (net : Network) (st : State) :
  exists new,
    calls (snd (PerStory.visit cfg id sent net st)) = calls st ++ new
    /\ notifications_follow cfg new.
Proof.
  destruct (to_string id) as [i|] eqn:Hid.
  - unfold PerStory.visit.
    rewrite (bind_ok _ _ net st i st)
      by (unfold or_type_error; rewrite Hid; reflexivity).
    destruct (perstory_fetchJSON_spec (item_url i) net st) as [l1 H1].
    rewrite (bind_ok _ _ _ _ _ _ H1).
    set (item := (plain_get (item_url i),
                  net (length (calls st)) (plain_get (item_url i)))) in *.
    destruct (story_url (item_of (net (length (calls st)) (plain_get (item_url i)))))
      as [u|] eqn:Hu.
    + match goal with
      | |- context [bind (PerStory.extractSummary u) _ net ?s] =>
          destruct (perstory_extractSummary_spec u net s) as [l2 H2]
      end.
      rewrite (bind_ok _ _ _ _ _ _ H2). cbv beta.
      cbn [calls] in *.
      set (page := (browser_get u,
                    net (length (calls st ++ [item])) (browser_get u))) in *.
      match goal with
      | |- context [bind (try_catch (PerStory.sendNotification cfg ?story) _) _
                      net ?s] =>
          destruct (perstory_send_calls cfg story net s)
            as (posts & H3 & Hposts);
          exists (item :: page :: posts); split;
          [unfold bind at 1;
           destruct (try_catch (PerStory.sendNotification cfg story)
                       (fun err => console_error (LogError err)) net s)
             as [[[]|err] s3]; cbn [snd calls ret] in *;
           rewrite H3, <- !app_assoc; reflexivity|]
      end.
      destruct Hposts as [-> | (text & o & Htext & ->)].
      * apply notifications_follow_get. repeat constructor.
      * intros pre c post Heq Hpost.
        destruct pre as [|c0 [|c1 [|c2 pre]]]; cbn [app] in Heq.
        -- injection Heq as <- _. discriminate Hpost.
        -- injection Heq as _ <- _. discriminate Hpost.
        -- injection Heq as <- <- <- _.
           exists [], item, page. split; [reflexivity|].
           exists u, text. cbn [PerStory.url] in Htext.
           split; [reflexivity|]. split; [exact Hu|].
           split; [reflexivity|]. split; [exact Htext|].
           cbv zeta. split; [apply str_or_nonempty; discriminate|].
           reflexivity.
        -- injection Heq as _ _ _ Heq. destruct pre; discriminate Heq.
    + unfold ret. cbn [snd calls]. exists [item]. split; [reflexivity|].
      apply notifications_follow_get. repeat constructor.
  - exists []. rewrite app_nil_r. split; [|apply notifications_follow_nil].
    unfold PerStory.visit, bind, or_type_error. rewrite Hid. reflexivity.
Qed.

Lemma perstory_loop_notifies (cfg : PerStory.Config) (l : list JSON) :
  forall sent net st,
  exists new,
    calls (snd (for_of l sent (PerStory.visit cfg) net st)) = calls st ++ new
    /\ notifications_follow cfg new.
Proof.
  induction l as [|id l IH]; intros sent net st.
  - exists []. rewrite app_nil_r. split; [reflexivity|].
    apply notifications_follow_nil.
  - destruct (perstory_visit_notifies cfg id sent net st) as (new1 & H1 & Hn1).
    cbn [for_of]. unfold bind.
    destruct (PerStory.visit cfg id sent net st) as [[sent'|err] s1];
      cbn [snd] in *.
    + destruct (IH sent' net s1) as (new2 & H2 & Hn2).
      exists (new1 ++ new2). rewrite H2, H1, app_assoc.
      split; [reflexivity|]. apply notifications_follow_app; assumption.
    + exists new1. split; assumption.
Qed.

(** X5: every notification a per-story run sends, on any network,
    comes right after the item fetch and the page fetch of one story
    and is the request [sendNotification] builds for it: it goes to the
    configured topic with the title of the item, the tags and the link
    as headers, the link is the truthy [url] of the item, and the text
    is the summary, a line break and the link, where the summary is the
    one extracted from the page just fetched or, when that is empty,
    the text (No summary available); so the summary is never empty. *)
Theorem perstory_notifications_well_formed (cfg : PerStory.Config)
  (net : Network) (pre : list (Request * Outcome)) (c : Request * Outcome)
  (post : list (Request * Outcome)) :
  calls (PerStory.run cfg net) = pre ++ c :: post ->
  is_post c = true ->
  exists pre' item page,
    pre = pre' ++ [item; page]
    /\ story_notification cfg item page c
    /\ linked page = true.
Proof.
  assert (Hrun : notifications_follow cfg (calls (PerStory.run cfg net))).
  { unfold PerStory.run, PerStory.handler.
    destruct (perstory_fetchJSON_spec topstories_url net initial) as [l0 H0].
    cbn [calls console replied initial length app] in H0.
    assert (Hlist : notifications_follow cfg [topstories_call net]).
    { apply notifications_follow_get. repeat constructor. }
    unfold try_catch. rewrite (bind_ok _ _ _ _ _ _ H0).
    destruct (item_of (net 0%nat (plain_get topstories_url))) as [| | | |l|];
      try exact Hlist.
    cbv beta iota zeta. unfold bind.
    match goal with
    | |- context [for_of ?ids 0 ?body net ?s] =>
        destruct (perstory_loop_notifies cfg ids 0 net s) as (new & Hloop & Hnew);
        cbn [calls] in Hloop;
        destruct (for_of ids 0 body net s) as [[sent|err] s2]
    end; cbn [snd calls respond console_error fst] in *; rewrite Hloop;
      apply (notifications_follow_app cfg [topstories_call net] new);
      assumption. }
  intros Hcalls Hpost.
  destruct (Hrun pre c post Hcalls Hpost) as (pre' & item & page & Hpre & Hstory).
  exists pre', item, page. split; [exact Hpre|]. split; [exact Hstory|].
  destruct Hstory as (u & text & _ & Hu & Hpage & _).
  destruct page as [req o]. cbn [fst] in Hpage. subst req.
  exact (story_url_truthy _ _ Hu).
Qed.

Lemma perstory_notifications_well_formed_witness :
  exists pre' item page,
    firstn 3 (calls (PerStory.run limit_2 net_123)) = pre' ++ [item; page]
    /\ story_notification limit_2 item page
         (nth 3 (calls (PerStory.run limit_2 net_123)) (topstories_call net_123))
    /\ linked page = true.
Proof.
  apply (perstory_notifications_well_formed limit_2 net_123
           (firstn 3 (calls (PerStory.run limit_2 net_123)))
           (nth 3 (calls (PerStory.run limit_2 net_123))
              (topstories_call net_123))
           (skipn 4 (calls (PerStory.run limit_2 net_123)))).
  - vm_compute. reflexivity.
  - reflexivity.
Defined.

(** ** The course of a digest run *)

Lemma for_of_joint_invariant {X A : Type} (R : A -> State -> Prop)
  (body : X -> A -> M A) :
  (forall x acc net st acc' st',
      R acc st -> body x acc net st = (Ok acc', st') -> R acc' st') ->
  forall l acc net st acc' st',
    R acc st -> for_of l acc body net st = (Ok acc', st') -> R acc' st'.
Proof.
  intros Hbody. induction l as [|x l IH]; intros acc net st acc' st' Hacc Hrun.
  - cbn in Hrun. injection Hrun as <- <-. exact Hacc.
  - cbn [for_of] in Hrun. unfold bind in Hrun.
    destruct (body x acc net st) as [[acc1|err] st1] eqn:Hstep; [|discriminate].
    apply (IH acc1 net st1 acc' st'); [|exact Hrun].
    exact (Hbody x acc net st acc1 st1 Hacc Hstep).
Qed.

Lemma digest_visit_collected (id : JSON) (stories : list Digest.Story)
  (net : Network) (st : State) (stories' : list Digest.Story) (st' : State) :
  collected stories st ->
  Digest.visit id stories net st = (Ok stories', st') ->
  collected stories' st'.
Proof.
  unfold collected. intros Hst.
  unfold Digest.visit, Digest.fetchJSON, Digest.extractSummary, bind,
    or_type_error, fetch, json, load_text, throw, ret.
  case_matches; intros H; try discriminate; injection H as <- <-;
    cbn [calls]; rewrite ?filter_app, ?length_app; cbn [filter];
    repeat match goal with
           | |- context [is_page_call (?r, ?o)] =>
               let v := eval lazy in (is_page_call (r, o)) in
               change (is_page_call (r, o)) with v
           end;
    cbn [length]; lia.
Qed.

(** The three ways a digest run ends. *)
Lemma digest_run_cases (cfg : Digest.Config) (net : Network) :
  exists gets,
    Forall (fun c => is_post c = false) gets
    /\ ((exists err,
            Digest.run cfg net = mkState gets [LogError err] (Some digest_error))
        \/ (exists body,
               Digest.run cfg net
               = mkState (gets ++ [(Digest.notification cfg body, Rejected)])
                   [LogError (FetchError (Digest.notification cfg body))]
                   (Some digest_error))
        \/ (exists body res,
               Digest.run cfg net
               = mkState (gets ++ [(Digest.notification cfg body, Resolved res)])
                   []
                   (Some (success_count
                            (Z.of_nat (length (filter is_page_call gets))))))).
Proof.
  remember (Digest.run cfg net) as final eqn:Hrun.
  unfold Digest.run, Digest.handler, try_catch in Hrun.
  assert (Hinit : quiet initial) by (split; [constructor|reflexivity]).
  pose proof (digest_fetchJSON_quiet topstories_url net initial Hinit) as Hq1.
  assert (Hc1 : collected [] (snd (Digest.fetchJSON topstories_url net initial))).
  { rewrite digest_fetchJSON_spec. reflexivity. }
  assert (Haborted : forall err s,
             quiet s ->
             final = snd ((console_error (LogError err) ;;;
                           respond 500
                             (JObj [(lit "error",
                                     JStr (lit "Failed to fetch or send stories"))]))
                            net s) ->
             exists gets,
               Forall (fun c => is_post c = false) gets
               /\ ((exists err, final = mkState gets [LogError err] (Some digest_error))
                   \/ (exists body,
                          final
                          = mkState (gets ++ [(Digest.notification cfg body, Rejected)])
                              [LogError (FetchError (Digest.notification cfg body))]
                              (Some digest_error))
                   \/ (exists body res,
                          final
                          = mkState (gets ++ [(Digest.notification cfg body, Resolved res)])
                              []
                              (Some (success_count
                                       (Z.of_nat (length (filter is_page_call gets)))))))).
  { intros err s [Hgets Hconsole] ->. exists (calls s). split; [exact Hgets|].
    left. exists err. cbn. rewrite Hconsole. reflexivity. }
  unfold bind at 1 in Hrun.
  destruct (Digest.fetchJSON topstories_url net initial) as [[ids|err] s1];
    cbn [snd] in Hq1, Hc1; [|exact (Haborted err s1 Hq1 Hrun)].
  unfold bind at 1 in Hrun.
  destruct (Digest.slice_value ids 10) as [topIds|];
    cbn [or_type_error ret throw] in Hrun;
    [|exact (Haborted _ s1 Hq1 Hrun)].
  unfold bind at 1 in Hrun.
  destruct (Digest.iterate topIds) as [elements|];
    cbn [or_type_error ret throw] in Hrun;
    [|exact (Haborted _ s1 Hq1 Hrun)].
  pose proof (for_of_state_invariant quiet Digest.visit
                (fun x acc net0 st0 => digest_visit_quiet x acc net0 st0)
                elements [] net s1 Hq1) as Hq2.
  pose proof (for_of_joint_invariant collected Digest.visit
                (fun x acc net0 st0 acc' st' => digest_visit_collected x acc net0 st0 acc' st')
                elements [] net s1) as Hc2.
  unfold bind at 1 in Hrun.
  destruct (for_of elements [] Digest.visit net s1) as [[stories|err] s2];
    cbn [snd] in Hq2; [|exact (Haborted _ s2 Hq2 Hrun)].
  specialize (Hc2 stories s2 Hc1 eq_refl).
  unfold bind at 1 in Hrun.
  destruct (Digest.compose 0 stories (lit "")) as [body|];
    cbn [or_type_error ret throw] in Hrun;
    [|exact (Haborted _ s2 Hq2 Hrun)].
  unfold bind at 1 in Hrun. unfold fetch in Hrun.
  destruct Hq2 as [Hgets Hconsole]. exists (calls s2). split; [exact Hgets|].
  destruct (net (length (calls s2)) (Digest.notification cfg body)) as [|res'].
  - right. left. exists body. subst final. cbn. rewrite Hconsole. reflexivity.
  - right. right. exists body, res'. subst final. cbn.
    rewrite Hconsole, Hc2. reflexivity.
Qed.

(** X8: a digest run sends at most one notification, after all its
    other requests, and it goes to the configured topic with the
    configured title and tags. *)
Theorem digest_sends_one_notification (cfg : Digest.Config) (net : Network) :
  exists gets posts,
    calls (Digest.run cfg net) = gets ++ posts
    /\ Forall (fun c => is_post c = false) gets
    /\ (posts = [] \/ exists body o, posts = [(Digest.notification cfg body, o)]).
Proof.
  destruct (digest_run_cases cfg net)
    as (gets & Hgets & [[err H] | [[body H] | (body & res & H)]]); rewrite H.
  - exists gets, []. rewrite app_nil_r. auto.
  - exists gets, [(Digest.notification cfg body, Rejected)]. eauto 6.
  - exists gets, [(Digest.notification cfg body, Resolved res)]. eauto 6.
Qed.

Lemma filter_page_no_post l :
  Forall (fun c => is_post c = false) l ->
  forall c, is_post c = true -> filter is_page_call (l ++ [c]) = filter is_page_call l.
Proof.
  intros _ c Hc. rewrite filter_app. cbn [filter].
  replace (is_page_call c) with false; [apply app_nil_r|].
  unfold is_post, is_page_call in *. destruct (req_method (fst c)); [discriminate|reflexivity].
Qed.

(** X9: the reply of a digest run tells what happened: either it is a
    success whose count is the number of article pages fetched, nothing
    was written to the console and the relay answered the one
    notification sent; or it is the error reply, exactly one error was
    logged and no notification was answered by the relay. *)
Theorem digest_reply_matches_console (cfg : Digest.Config) (net : Network) :
  (replied (Digest.run cfg net)
   = Some (success_count
             (Z.of_nat (length (filter is_page_call (calls (Digest.run cfg net))))))
   /\ console (Digest.run cfg net) = []
   /\ exists body res,
        filter is_post (calls (Digest.run cfg net))
        = [(Digest.notification cfg body, Resolved res)])
  \/ (replied (Digest.run cfg net) = Some digest_error
      /\ (exists err, console (Digest.run cfg net) = [LogError err])
      /\ forall req res, In (req, Resolved res) (calls (Digest.run cfg net)) ->
                         req_method req = GET).
Proof.
  destruct (digest_run_cases cfg net)
    as (gets & Hgets & [[err H] | [[body H] | (body & res & H)]]); rewrite H;
    cbn [calls console replied].
  - right. split; [reflexivity|]. split; [eauto|].
    intros req res Hin. rewrite Forall_forall in Hgets. specialize (Hgets _ Hin).
    unfold is_post in Hgets. cbn [fst] in Hgets.
    destruct (req_method req); [reflexivity|discriminate].
  - right. split; [reflexivity|]. split; [eauto|].
    intros req res Hin. apply in_app_or in Hin as [Hin | [Hin | []]]; [|discriminate].
    rewrite Forall_forall in Hgets. specialize (Hgets _ Hin).
    unfold is_post in Hgets. cbn [fst] in Hgets.
    destruct (req_method req); [reflexivity|discriminate].
  - left. rewrite (filter_page_no_post gets Hgets) by reflexivity.
    split; [reflexivity|]. split; [reflexivity|].
    exists body, res. rewrite filter_app, (filter_none _ _ Hgets). reflexivity.
Qed.

(** ** Replies *)

Lemma perstory_visit_result (cfg : PerStory.Config) (id : JSON) (sent : Z)
  (net : Network) (st : State) (sent' : Z) :
  fst (PerStory.visit cfg id sent net st) = Ok sent' ->
  sent' = sent \/ sent' = sent + 1.
Proof.
  destruct (to_string id) as [i|] eqn:Hid.
  - destruct (perstory_visit_spec cfg id i sent net st Hid)
      as (more & lines & Hvisit & _).
    rewrite Hvisit. cbn [fst]. intros H. injection H as <-.
    destruct (gave_story _); lia.
  - unfold PerStory.visit, bind, or_type_error. rewrite Hid. discriminate.
Qed.

Lemma perstory_loop_nonneg (cfg : PerStory.Config) (l : list JSON) (sent : Z)
  (net : Network) (st : State) (sent' : Z) :
  0 <= sent ->
  fst (for_of l sent (PerStory.visit cfg) net st) = Ok sent' -> 0 <= sent'.
Proof.
  apply (for_of_result_invariant (fun acc => 0 <= acc)).
  intros x acc net0 st0 acc' Hacc Hstep.
  destruct (perstory_visit_result cfg x acc net0 st0 acc' Hstep); lia.
Qed.

(** X10: every run of either handler replies, once, with one of its
    fixed shapes: the per-story handler with the list error, a success
    with a count that is not negative, or the internal error; the
    digest handler with a success with a count that is not negative or
    its error. *)
Theorem handlers_always_reply :
  (forall cfg net,
      replied (PerStory.run cfg net) = Some perstory_list_error
      \/ (exists n, 0 <= n /\ replied (PerStory.run cfg net) = Some (success_sent n))
      \/ replied (PerStory.run cfg net) = Some perstory_internal_error)
  /\ (forall cfg net,
        (exists n, 0 <= n /\ replied (Digest.run cfg net) = Some (success_count n))
        \/ replied (Digest.run cfg net) = Some digest_error).
Proof.
  split.
  - intros cfg net. unfold PerStory.run, PerStory.handler.
    destruct (perstory_fetchJSON_spec topstories_url net initial) as [l0 H0].
    unfold try_catch. rewrite (bind_ok _ _ _ _ _ _ H0).
    destruct (item_of (net (length (calls initial)) (plain_get topstories_url)))
      as [| | | |l|]; try (left; reflexivity).
    right. unfold bind.
    destruct (for_of (slice0 l (PerStory.LIMIT cfg)) 0 (PerStory.visit cfg) net _)
      as [[sent|err] s2] eqn:Hloop.
    + left. exists sent. split; [|reflexivity].
      eapply (perstory_loop_nonneg cfg _ 0); [lia|]. rewrite Hloop. reflexivity.
    + right. reflexivity.
  - intros cfg net.
    destruct (digest_run_cases cfg net)
      as (gets & Hgets & [[err H] | [[body H] | (body & res & H)]]); rewrite H.
    + right. reflexivity.
    + right. reflexivity.
    + left. eexists. split; [|reflexivity]. lia.
Qed.


(** ** An empty list *)

Lemma digest_list_fetched (net : Network) (l : list JSON) :
  item_of (net 0%nat (plain_get topstories_url)) = JArr l ->
  Digest.fetchJSON topstories_url net initial
  = (Ok (JArr l), mkState [topstories_call net] [] None).
Proof.
  intros Hids. rewrite digest_fetchJSON_spec. unfold item_of, topstories_call in *.
  cbn [calls console replied initial length app].
  destruct (net 0%nat (plain_get topstories_url)) as [|res]; [discriminate|].
  destruct (res_ok res); [|discriminate].
  destruct (res_json res); [|discriminate].
  rewrite Hids. reflexivity.
Qed.

Lemma digest_empty_list (cfg : Digest.Config) (net : Network) :
  item_of (net 0%nat (plain_get topstories_url)) = JArr [] ->
  calls (Digest.run cfg net)
  = [topstories_call net;
     (Digest.notification cfg [], net 1%nat (Digest.notification cfg []))]
  /\ (forall res, net 1%nat (Digest.notification cfg []) = Resolved res ->
                  replied (Digest.run cfg net) = Some (success_count 0))
  /\ (net 1%nat (Digest.notification cfg []) = Rejected ->
      replied (Digest.run cfg net) = Some digest_error).
Proof.
  intros Hids. pose proof (digest_list_fetched net [] Hids) as Hlist.
  unfold Digest.run, Digest.handler, try_catch.
  rewrite (bind_ok _ _ _ _ _ _ Hlist).
  unfold bind, fetch, respond, console_error. cbn.
  destruct (net 1%nat (Digest.notification cfg [])) as [|res]; cbn.
  - repeat split. intros res H. discriminate.
  - repeat split. intros H. discriminate.
Qed.


(** X7: when the list endpoint gives the empty array, the per-story
    handler makes no other request and replies with 0 sent, while the
    digest handler still posts a notification, with an empty text, and
    replies with count 0 if the relay answers. *)
Theorem empty_list_runs (net : Network) :
  item_of (net 0%nat (plain_get topstories_url)) = JArr [] ->
  (forall cfg,
      calls (PerStory.run cfg net) = [topstories_call net]
      /\ replied (PerStory.run cfg net) = Some (success_sent 0))
  /\ (forall cfg,
        calls (Digest.run cfg net)
        = [topstories_call net;
           (Digest.notification cfg [], net 1%nat (Digest.notification cfg []))]
        /\ (forall res,
               net 1%nat (Digest.notification cfg []) = Resolved res ->
               replied (Digest.run cfg net) = Some (success_count 0))
        /\ (net 1%nat (Digest.notification cfg []) = Rejected ->
            replied (Digest.run cfg net) = Some digest_error)).
Proof.
  intros Hids. split; intros cfg.
  - exact (perstory_empty_list cfg net Hids).
  - exact (digest_empty_list cfg net Hids).
Qed.

Lemma empty_list_runs_witness :
  calls (PerStory.run limit_2 net_empty_list) = [topstories_call net_empty_list]
  /\ replied (PerStory.run limit_2 net_empty_list) = Some (success_sent 0)
  /\ length (filter is_post (calls (Digest.run digest_defaults net_empty_list)))
     = 1%nat
  /\ replied (Digest.run digest_defaults net_empty_list)
     = Some (success_count 0).
Proof.
  destruct (empty_list_runs net_empty_list eq_refl) as [Hper Hdigest].
  destruct (Hper limit_2) as [Hcalls Hreply].
  destruct (Hdigest digest_defaults) as (Hposted & Hanswered & _).
  split; [exact Hcalls|]. split; [exact Hreply|]. split.
  - rewrite Hposted. reflexivity.
  - apply (Hanswered (mkResponse true 200 None None)). reflexivity.
Defined.

(** ** The text of the digest *)

Lemma entry_defined idx story :
  Digest.entry idx story <> None <-> printable_story story.
Proof.
  unfold Digest.entry, printable_story.
  destruct (to_string_val (Digest.title story)), (to_string (Digest.score story)),
    (to_string (Digest.url story)); split; intros H;
    try (repeat split; discriminate); try (destruct H as (H1 & H2 & H3); congruence);
    try (exfalso; apply H; reflexivity).
Qed.

Lemma compose_defined (l : list Digest.Story) : forall idx body,
  Digest.compose idx l body <> None <-> Forall printable_story l.
Proof.
  induction l as [|s l IH]; intros idx body.
  - cbn. split; [constructor|discriminate].
  - cbn [Digest.compose]. pose proof (entry_defined idx s) as He.
    destruct (Digest.entry idx s) as [e|].
    + rewrite IH. split.
      * intros H. constructor; [apply He; discriminate|exact H].
      * intros H. inversion H. assumption.
    + split; [congruence|]. intros H. inversion H as [|? ? Hs _].
      apply He in Hs. congruence.
Qed.
Lemma compose_app (a b : list Digest.Story) : forall idx body,
  Digest.compose idx (a ++ b) body
  = match Digest.compose idx a body with
    | Some text => Digest.compose (idx + Z.of_nat (length a)) b text
    | None => None
    end.
Proof.
  induction a as [|s a IH]; intros idx body.
  - cbn. rewrite Z.add_0_r. reflexivity.
  - cbn [app Digest.compose]. destruct (Digest.entry idx s); [|reflexivity].
    rewrite IH. cbn [length]. rewrite Nat2Z.inj_succ.
    replace (idx + 1 + Z.of_nat (length a)) with (idx + Z.succ (Z.of_nat (length a))) by lia.
    reflexivity.
Qed.

Lemma compose_extends (l : list Digest.Story) : forall idx body text,
  Digest.compose idx l body = Some text -> exists added, text = body ++ added.
Proof.
  induction l as [|s l IH]; intros idx body text H.
  - cbn in H. injection H as <-. exists []. rewrite app_nil_r. reflexivity.
  - cbn [Digest.compose] in H. destruct (Digest.entry idx s) as [e|]; [|discriminate].
    destruct (IH _ _ _ H) as [added ->]. exists (e ++ added). rewrite app_assoc. reflexivity.
Qed.

(** X15: the text of the digest is built exactly when the title, the
    score and the link of every story have a string form (otherwise the
    template literal throws); each story only adds to the end of the
    text built so far; and composing a list in two parts gives the text
    of the whole list, the numbering going on. *)
Theorem digest_text_composition :
  (forall l idx body,
      Digest.compose idx l body <> None <-> Forall printable_story l)
  /\ (forall l idx body text,
        Digest.compose idx l body = Some text ->
        exists added, text = body ++ added)
  /\ (forall a b idx body,
        Digest.compose idx (a ++ b) body
        = match Digest.compose idx a body with
          | Some text => Digest.compose (idx + Z.of_nat (length a)) b text
          | None => None
          end).
Proof.
  split; [|split].
  - exact compose_defined.
  - exact compose_extends.
  - exact compose_app.
Qed.

(** ** Sample inputs *)

Lemma fallback_summary_truncates_witness :
  exists kept dropped,
    trim (lit (" " ++ prose ++ " ")) = kept ++ dropped
    /\ summary_of page_prose = kept ++ lit "."
    /\ (dropped = [] \/ exists r, dropped = dot_space ++ r).
Proof.
  apply (fallback_summary_truncates page_prose [lit "Menu"]
           (lit (" " ++ prose ++ " ")) [lit one_sentence]).
  - reflexivity.
  - reflexivity.
  - repeat constructor.
  - vm_compute. repeat constructor.
Defined.

Lemma perstory_aborts_without_array_witness :
  replied (PerStory.run limit_2 net_string_list) = Some perstory_list_error
  /\ calls (PerStory.run limit_2 net_string_list)
     = [topstories_call net_string_list].
Proof.
  apply (perstory_aborts_without_array limit_2 net_string_list).
  intros l H. discriminate H.
Defined.

Lemma digest_aborts_without_array_or_string_witness :
  replied (Digest.run digest_defaults (script [json_answer (JNum 7)]))
  = Some digest_error
  /\ calls (Digest.run digest_defaults (script [json_answer (JNum 7)]))
     = [topstories_call (script [json_answer (JNum 7)])].
Proof.
  apply (digest_aborts_without_array_or_string digest_defaults
           (script [json_answer (JNum 7)])).
  - intros l H. discriminate H.
  - intros s H. discriminate H.
Defined.
